(** * The OPIC-HITS frontier backend

    A shallow embedding of [OpicHitsBackend], the class of
    [crawlfrontier/contrib/backends/opic/backend.py], and the properties
    of its four frontier operations ([add_seeds], [page_crawled],
    [request_error], [get_next_requests]), of its debugging helpers and
    of its construction from the settings ([from_manager]).

    The backend owns six collaborators (graph store, page store, score
    engine, frequency estimator, change detector, scheduler).  Their
    modules are not part of the file, so the backend is written over
    their interfaces; every call the backend makes to one of them is
    also recorded, in order, in the trace of the run.  A call to a
    collaborator returns: the failure of a store is outside the model.
    So is real time: the elapsed time that the [PROFILE] messages print
    is left out of them. *)

From Stdlib Require Import QArith Ascii.
From stdpp Require Import gmap strings list fin_maps sorting pretty.

(** ** Data passed through the frontier interface *)

(** [pagedb.PageData(url, domain)]. *)
Record PageData := { pd_url : string; pd_domain : string }.

(** A frontier [Request]: the backend reads [url], [meta['fingerprint']]
    and [meta['domain']['name']] of it, and writes the same three when it
    builds one in [_get_request_from_id]. *)
Record Request := {
  url : string;
  meta_fingerprint : string;
  meta_domain_name : string }.

(** A frontier [Response]: [page_crawled] reads [response.meta['fingerprint']],
    [response.request.meta['fingerprint']], [response.body] and
    [response.url].  The two fingerprints are kept apart, as the code
    reads them. *)
Record Response := {
  response_url : string;
  body : string;
  response_meta_fingerprint : string;
  request : Request }.

(** [pagechange.Status]. *)
Inductive Status := NEW | UNCHANGED | UPDATED.

Global Instance Status_eq_dec : EqDecision Status.
Proof. solve_decision. Defined.

(** Python truthiness of a string that may be [None]: only a non-empty
    string passes [if body:]. *)
Definition truthy (body : option string) : bool :=
  match body with
  | Some (String _ _) => true
  | _ => false
  end.

(** [OpicHitsBackend.DEFAULT_FREQ = 1.0/(30.0*24*3600.0)]: once a month. *)
Definition DEFAULT_FREQ : Q := 1 # 2592000.

(** Exceptions the backend's own code can raise. *)
Inductive exn := KeyError | AttributeError (name : string).

Inductive outcome (A : Type) :=
| Returns (a : A)
| Raises (e : exn).
Arguments Returns {A} a.
Arguments Raises {A} e.

(** ** Interfaces of the collaborators

    One class per interface named in the constructor's docstring.  An
    operation is a transformer of the collaborator's state; a query
    returns its answer.  The score engine is built over the graph store
    ([OpicHits(db_graph=self._graph, ...)]), so its operations are given
    the graph as it is at the time of the call. *)

Class GraphInterface (G : Type) := {
  graph_add_node : string -> G -> G;
  graph_add_edge : string -> string -> G -> G;
  graph_start_batch : G -> G;
  graph_end_batch : G -> G;
  graph_close : G -> G }.

Class PageDBInterface (P : Type) := {
  pages_add : string -> PageData -> P -> P;
  pages_get : string -> P -> option PageData;
  pages_start_batch : P -> P;
  pages_end_batch : P -> P;
  pages_close : P -> P }.

Class OpicHitsInterface (G O score : Type) := {
  opic_add_page : string -> G -> O -> O;
  opic_get_scores : string -> O -> score * score;
  opic_mark_update : string -> G -> O -> O;
  opic_update : G -> O -> (list string * list string) * O;
  opic_iscores : O -> list (string * score * score);
  opic_close : O -> O }.

Class FreqEstimatorInterface (F rate : Type) := {
  freqest_add : string -> F -> F;
  freqest_refresh : string -> bool -> F -> F;
  freqest_frequency : string -> F -> rate;
  freqest_close : F -> F }.

Class PageChangeInterface (C : Type) := {
  pagechange_update : string -> string -> C -> Status * C }.

Class SchedulerInterface (S score rate : Type) := {
  scheduler_set_rate : string -> rate -> S -> S;
  scheduler_set_value : string -> score -> S -> S;
  scheduler_delete : string -> S -> S;
  scheduler_get_next_pages : nat -> S -> list string * S;
  scheduler_close : S -> S }.

(** ** The calls a run makes *)

Inductive call {score rate : Type} :=
| GraphAddNode (fp : string)
| GraphAddEdge (src dst : string)
| GraphStartBatch
| GraphEndBatch
| GraphClose
| PagesAdd (fp : string) (d : PageData)
| PagesGet (fp : string)
| PagesStartBatch
| PagesEndBatch
| PagesClose
| OpicAddPage (fp : string)
| OpicGetScores (fp : string)
| OpicMarkUpdate (fp : string)
| OpicUpdate
| OpicIscores
| OpicClose
| FreqAdd (fp : string)
| FreqRefresh (fp : string) (changed : bool)
| FreqFrequency (fp : string)
| FreqClose
| PageChangeUpdate (fp : string) (content : string)
| SchedSetRate (fp : string) (r : rate)
| SchedSetValue (fp : string) (v : score)
| SchedDelete (fp : string)
| SchedGetNextPages (n : nat)
| SchedClose
| LogDebug (msg : string).
Arguments call : clear implicits.

(** Values an attribute assigned after construction can hold: a
    dictionary of scores by URL, or an object that exposes [_closed]. *)
Inductive value {score : Type} :=
| VScores (d : gmap string score)
| VStore (_closed : bool).
Arguments value : clear implicits.

Section Backend.

Context {G P O F C S score rate : Type}.
Context {graph_store : GraphInterface G} {page_store : PageDBInterface P}
        {score_engine : OpicHitsInterface G O score}
        {estimator : FreqEstimatorInterface F rate}
        {detector : PageChangeInterface C}
        {page_scheduler : SchedulerInterface S score rate}.

(** The object [self].  The first eight fields are the attributes
    [__init__] assigns ([_manager] is only used for its logger, whose
    messages go to the trace); [__dict__] holds the attributes assigned
    later by name. *)
Record OpicHitsBackend := {
  _graph : G;
  _pages : P;
  _opic : O;
  _freqest : F;
  _pagechange : C;
  _scheduler : S;
  _test : bool;
  _pending_requests : gset string;
  __dict__ : gmap string (value score) }.

Definition with_graph (g : G) (b : OpicHitsBackend) : OpicHitsBackend :=
  {| _graph := g; _pages := _pages b; _opic := _opic b;
     _freqest := _freqest b; _pagechange := _pagechange b;
     _scheduler := _scheduler b; _test := _test b;
     _pending_requests := _pending_requests b; __dict__ := __dict__ b |}.

Definition with_pages (p : P) (b : OpicHitsBackend) : OpicHitsBackend :=
  {| _graph := _graph b; _pages := p; _opic := _opic b;
     _freqest := _freqest b; _pagechange := _pagechange b;
     _scheduler := _scheduler b; _test := _test b;
     _pending_requests := _pending_requests b; __dict__ := __dict__ b |}.

Definition with_opic (o : O) (b : OpicHitsBackend) : OpicHitsBackend :=
  {| _graph := _graph b; _pages := _pages b; _opic := o;
     _freqest := _freqest b; _pagechange := _pagechange b;
     _scheduler := _scheduler b; _test := _test b;
     _pending_requests := _pending_requests b; __dict__ := __dict__ b |}.

Definition with_freqest (f : F) (b : OpicHitsBackend) : OpicHitsBackend :=
  {| _graph := _graph b; _pages := _pages b; _opic := _opic b;
     _freqest := f; _pagechange := _pagechange b;
     _scheduler := _scheduler b; _test := _test b;
     _pending_requests := _pending_requests b; __dict__ := __dict__ b |}.

Definition with_pagechange (c : C) (b : OpicHitsBackend) : OpicHitsBackend :=
  {| _graph := _graph b; _pages := _pages b; _opic := _opic b;
     _freqest := _freqest b; _pagechange := c;
     _scheduler := _scheduler b; _test := _test b;
     _pending_requests := _pending_requests b; __dict__ := __dict__ b |}.

Definition with_scheduler (s : S) (b : OpicHitsBackend) : OpicHitsBackend :=
  {| _graph := _graph b; _pages := _pages b; _opic := _opic b;
     _freqest := _freqest b; _pagechange := _pagechange b;
     _scheduler := s; _test := _test b;
     _pending_requests := _pending_requests b; __dict__ := __dict__ b |}.

Definition with_pending (s : gset string) (b : OpicHitsBackend) : OpicHitsBackend :=
  {| _graph := _graph b; _pages := _pages b; _opic := _opic b;
     _freqest := _freqest b; _pagechange := _pagechange b;
     _scheduler := _scheduler b; _test := _test b;
     _pending_requests := s; __dict__ := __dict__ b |}.

Definition with_dict (d : gmap string (value score)) (b : OpicHitsBackend)
  : OpicHitsBackend :=
  {| _graph := _graph b; _pages := _pages b; _opic := _opic b;
     _freqest := _freqest b; _pagechange := _pagechange b;
     _scheduler := _scheduler b; _test := _test b;
     _pending_requests := _pending_requests b; __dict__ := d |}.

(** ** Runs

    A method is a function of the object it is called on; a run gives
    what the call returned or raised, the object afterwards (a raise
    keeps the mutations made before it), and the calls made, oldest
    first. *)

Record run (A : Type) := {
  result : outcome A;
  final : OpicHitsBackend;
  trace : list (call score rate) }.
Global Arguments result {A} r.
Global Arguments final {A} r.
Global Arguments trace {A} r.

Definition M (A : Type) : Type := OpicHitsBackend -> run A.

Definition ret {A} (a : A) : M A :=
  fun b => {| result := Returns a; final := b; trace := [] |}.

Definition raise {A} (e : exn) : M A :=
  fun b => {| result := Raises e; final := b; trace := [] |}.

Definition bind {A B} (m : M A) (k : A -> M B) : M B :=
  fun b =>
    let r := m b in
    match result r with
    | Returns a =>
        let r' := k a (final r) in
        {| result := result r'; final := final r'; trace := trace r ++ trace r' |}
    | Raises e => {| result := Raises e; final := final r; trace := trace r |}
    end.

Global Instance M_ret : MRet M := @ret.
Global Instance M_bind : MBind M := fun A B k m => bind m k.

(** [try: body except <handled>: handler]. *)
Definition try_except {A} (body : M A) (handled : exn -> bool) (handler : M A)
  : M A :=
  fun b =>
    let r := body b in
    match result r with
    | Returns a => r
    | Raises e =>
        if handled e then
          let r' := handler (final r) in
          {| result := result r'; final := final r'; trace := trace r ++ trace r' |}
        else r
    end.

(** [for x in l: body x]. *)
Fixpoint for_each {A} (l : list A) (body : A -> M unit) : M unit :=
  match l with
  | [] => ret tt
  | x :: l' => body x ;; for_each l' body
  end.

(** A call that changes one collaborator and returns nothing. *)
Definition does (c : call score rate) (f : OpicHitsBackend -> OpicHitsBackend)
  : M unit :=
  fun b => {| result := Returns tt; final := f b; trace := [c] |}.

(** A call that returns an answer, possibly changing the collaborator. *)
Definition asks {A} (c : call score rate)
  (f : OpicHitsBackend -> A * OpicHitsBackend) : M A :=
  fun b => {| result := Returns (f b).1; final := (f b).2; trace := [c] |}.

(** *** [self._graph] *)
Definition _graph_add_node (fp : string) : M unit :=
  does (GraphAddNode fp) (fun b => with_graph (graph_add_node fp (_graph b)) b).
Definition _graph_add_edge (src dst : string) : M unit :=
  does (GraphAddEdge src dst)
       (fun b => with_graph (graph_add_edge src dst (_graph b)) b).
Definition _graph_start_batch : M unit :=
  does GraphStartBatch (fun b => with_graph (graph_start_batch (_graph b)) b).
Definition _graph_end_batch : M unit :=
  does GraphEndBatch (fun b => with_graph (graph_end_batch (_graph b)) b).
Definition _graph_close : M unit :=
  does GraphClose (fun b => with_graph (graph_close (_graph b)) b).

(** *** [self._pages] *)
Definition _pages_add (fp : string) (d : PageData) : M unit :=
  does (PagesAdd fp d) (fun b => with_pages (pages_add fp d (_pages b)) b).
Definition _pages_get (fp : string) : M (option PageData) :=
  asks (PagesGet fp) (fun b => (pages_get fp (_pages b), b)).
Definition _pages_start_batch : M unit :=
  does PagesStartBatch (fun b => with_pages (pages_start_batch (_pages b)) b).
Definition _pages_end_batch : M unit :=
  does PagesEndBatch (fun b => with_pages (pages_end_batch (_pages b)) b).
Definition _pages_close : M unit :=
  does PagesClose (fun b => with_pages (pages_close (_pages b)) b).

(** *** [self._opic] *)
Definition _opic_add_page (fp : string) : M unit :=
  does (OpicAddPage fp)
       (fun b => with_opic (opic_add_page fp (_graph b) (_opic b)) b).
Definition _opic_get_scores (fp : string) : M (score * score) :=
  asks (OpicGetScores fp) (fun b => (opic_get_scores fp (_opic b), b)).
Definition _opic_mark_update (fp : string) : M unit :=
  does (OpicMarkUpdate fp)
       (fun b => with_opic (opic_mark_update fp (_graph b) (_opic b)) b).
Definition _opic_update : M (list string * list string) :=
  asks OpicUpdate
       (fun b => let r := opic_update (_graph b) (_opic b) in
                 (r.1, with_opic r.2 b)).
Definition _opic_iscores : M (list (string * score * score)) :=
  asks OpicIscores (fun b => (opic_iscores (_opic b), b)).
Definition _opic_close : M unit :=
  does OpicClose (fun b => with_opic (opic_close (_opic b)) b).

(** *** [self._freqest] *)
Definition _freqest_add (fp : string) : M unit :=
  does (FreqAdd fp) (fun b => with_freqest (freqest_add fp (_freqest b)) b).
Definition _freqest_refresh (fp : string) (changed : bool) : M unit :=
  does (FreqRefresh fp changed)
       (fun b => with_freqest (freqest_refresh fp changed (_freqest b)) b).
Definition _freqest_frequency (fp : string) : M rate :=
  asks (FreqFrequency fp) (fun b => (freqest_frequency fp (_freqest b), b)).
Definition _freqest_close : M unit :=
  does FreqClose (fun b => with_freqest (freqest_close (_freqest b)) b).

(** *** [self._pagechange] *)
Definition _pagechange_update (fp content : string) : M Status :=
  asks (PageChangeUpdate fp content)
       (fun b => let r := pagechange_update fp content (_pagechange b) in
                 (r.1, with_pagechange r.2 b)).

(** *** [self._scheduler] *)
Definition _scheduler_set_rate (fp : string) (r : rate) : M unit :=
  does (SchedSetRate fp r)
       (fun b => with_scheduler (scheduler_set_rate fp r (_scheduler b)) b).
Definition _scheduler_set_value (fp : string) (v : score) : M unit :=
  does (SchedSetValue fp v)
       (fun b => with_scheduler (scheduler_set_value fp v (_scheduler b)) b).
Definition _scheduler_delete (fp : string) : M unit :=
  does (SchedDelete fp)
       (fun b => with_scheduler (scheduler_delete fp (_scheduler b)) b).
Definition _scheduler_get_next_pages (n : nat) : M (list string) :=
  asks (SchedGetNextPages n)
       (fun b => let r := scheduler_get_next_pages n (_scheduler b) in
                 (r.1, with_scheduler r.2 b)).
Definition _scheduler_close : M unit :=
  does SchedClose (fun b => with_scheduler (scheduler_close (_scheduler b)) b).

(** *** [self._manager.logger.backend.debug]; a [PROFILE] message is
    logged without its elapsed time *)
Definition logger_debug (msg : string) : M unit :=
  fun b => {| result := Returns tt; final := b; trace := [LogDebug msg] |}.

(** *** [self._pending_requests] *)

(** [set.remove(x)]: raises [KeyError] when [x] is not a member. *)
Definition _pending_requests_remove (fp : string) : M unit :=
  fun b =>
    if decide (fp ∈ _pending_requests b) then
      {| result := Returns tt;
         final := with_pending (_pending_requests b ∖ {[fp]}) b;
         trace := [] |}
    else {| result := Raises KeyError; final := b; trace := [] |}.

(** [set.update(iterable)]. *)
Definition _pending_requests_update (fps : list string) : M unit :=
  fun b =>
    {| result := Returns tt;
       final := with_pending (_pending_requests b ∪ list_to_set fps) b;
       trace := [] |}.

(** *** Attributes looked up by name *)

(** [self.<name>] for a name that [__init__] does not assign. *)
Definition getattr (name : string) : M (value score) :=
  fun b =>
    match __dict__ b !! name with
    | Some v => {| result := Returns v; final := b; trace := [] |}
    | None => {| result := Raises (AttributeError name); final := b; trace := [] |}
    end.

(** [self.<name> = v]. *)
Definition setattr (name : string) (v : value score) : M unit :=
  fun b => {| result := Returns tt;
              final := with_dict (<[name := v]> (__dict__ b)) b;
              trace := [] |}.

(** [<v>._closed]. *)
Definition getattr__closed (v : value score) : M bool :=
  match v with
  | VStore c => ret c
  | VScores _ => raise (AttributeError "_closed")
  end.

(** ** The methods of [OpicHitsBackend] *)

(** [__init__], given the six collaborators already built: the defaults
    of the arguments ([graphdb.SQLite()] and the like) and the
    construction of [OpicHits] over [db_graph] and [db_hits] are the
    caller's. *)
Definition __init__ (db_graph : G) (db_pages : P) (opic : O) (scheduler : S)
  (freq_estimator : F) (change_detector : C) (test : bool) : OpicHitsBackend :=
  {| _graph := db_graph;
     _pages := db_pages;
     _opic := opic;
     _freqest := freq_estimator;
     _pagechange := change_detector;
     _scheduler := scheduler;
     _test := test;
     _pending_requests := ∅;
     __dict__ := ∅ |}.

(** [frontier_start]: [pass]. *)
Definition frontier_start : M unit := ret tt.

(** [_update_freqest(page_fingerprint, body=None)]: the estimation of the
    change rate of a page, then its rate in the scheduler. *)
Definition _update_freqest (page_fingerprint : string) (body : option string)
  : M unit :=
  page_status ←
    (if truthy body then
       st ← _pagechange_update page_fingerprint (default "" body); ret (Some st)
     else ret None);
  match page_status with
  | None | Some NEW => _freqest_add page_fingerprint
  | Some st =>
      _freqest_refresh page_fingerprint (bool_decide (st = UPDATED))
  end ;;
  f ← _freqest_frequency page_fingerprint;
  _scheduler_set_rate page_fingerprint f.

(** [_update_page_value(page_fingerprint, value=None)]. *)
Definition _update_page_value (page_fingerprint : string) (v : option score)
  : M unit :=
  a_score ←
    match v with
    | None => ha ← _opic_get_scores page_fingerprint; ret ha.2
    | Some a => ret a
    end;
  _scheduler_set_value page_fingerprint a_score.

(** [_add_new_link(link)]: registers the link with every collaborator and
    returns its fingerprint. *)
Definition _add_new_link (link : Request) : M string :=
  let fingerprint := meta_fingerprint link in
  _graph_add_node fingerprint ;;
  _opic_add_page fingerprint ;;
  _pages_add fingerprint
             {| pd_url := url link; pd_domain := meta_domain_name link |} ;;
  _update_freqest fingerprint None ;;
  _update_page_value fingerprint None ;;
  ret fingerprint.

(** [add_seeds(seeds)]. *)
Definition add_seeds (seeds : list Request) : M unit :=
  _graph_start_batch ;;
  _pages_start_batch ;;
  for_each seeds (fun seed => _add_new_link seed ;; ret tt) ;;
  _graph_end_batch ;;
  _pages_end_batch ;;
  logger_debug "PROFILE ADD_SEEDS time".

(** [page_crawled(response, links)].  The call to [end_batch] of the
    graph store is in the body of the loop, as in the source. *)
Definition page_crawled (response : Response) (links : list Request) : M unit :=
  let page_fingerprint := response_meta_fingerprint response in
  _ ← _opic_get_scores page_fingerprint;
  _pages_start_batch ;;
  _graph_start_batch ;;
  for_each links (fun link =>
    link_fingerprint ← _add_new_link link;
    _graph_add_edge page_fingerprint link_fingerprint ;;
    _graph_end_batch) ;;
  _pages_end_batch ;;
  _opic_mark_update page_fingerprint ;;
  _update_freqest page_fingerprint (Some (body response)) ;;
  try_except
    (_pending_requests_remove (meta_fingerprint (request response)))
    (fun e => match e with KeyError => true | _ => false end)
    (logger_debug (response_url response ++ " was crawled without request")) ;;
  logger_debug "PROFILE PAGE_CRAWLED time".

(** [request_error(page, error)]; [error] is not used. *)
Definition request_error (page : Request) : M unit :=
  _scheduler_delete (meta_fingerprint page).

(** [_get_request_from_id(page_id)]: [None] for a page the page store
    does not know. *)
Definition _get_request_from_id (page_id : string) : M (option Request) :=
  page_data ← _pages_get page_id;
  match page_data with
  | Some d =>
      ret (Some {| url := pd_url d; meta_fingerprint := page_id;
                   meta_domain_name := pd_domain d |})
  | None => ret None
  end.

(** [map(f, l)] of Python 2: the list of the results, built at once. *)
Fixpoint map_M {A B} (f : A -> M B) (l : list A) : M (list B) :=
  match l with
  | [] => ret []
  | x :: l' => y ← f x; ys ← map_M f l'; ret (y :: ys)
  end.

(** [get_next_requests(max_n_requests)].  The pending set is updated and
    never read: [# TODO: filter out pending requests]. *)
Definition get_next_requests (max_n_requests : nat) : M (list (option Request)) :=
  updated ← _opic_update;
  for_each updated.2 (fun page_id => _update_page_value page_id None) ;;
  next_pages ← _scheduler_get_next_pages max_n_requests;
  _pending_requests_update next_pages ;;
  next_requests ← map_M _get_request_from_id next_pages;
  logger_debug "PROFILE GET_NEXT_REQUESTS time" ;;
  ret next_requests.

(** The dictionary [{self._pages.get(page_id).url: x for page_id, h, a in
    self._opic.iscores()}]; [.url] of a missing page raises. *)
Fixpoint scores_by_url (pick : score * score -> score)
  (rows : list (string * score * score)) (acc : gmap string score)
  : M (gmap string score) :=
  match rows with
  | [] => ret acc
  | (page_id, h, a) :: rows' =>
      page_data ← _pages_get page_id;
      match page_data with
      | Some d => scores_by_url pick rows' (<[pd_url d := pick (h, a)]> acc)
      | None => raise (AttributeError "url")
      end
  end.

(** [h_scores()] and [a_scores()], for testing and debugging. *)
Definition h_scores : M (value score) :=
  scores ← getattr "_scores";
  closed ← getattr__closed scores;
  if (closed : bool) then getattr "_h_scores"
  else
    rows ← _opic_iscores;
    d ← scores_by_url fst rows ∅;
    ret (VScores d).

Definition a_scores : M (value score) :=
  scores ← getattr "_scores";
  closed ← getattr__closed scores;
  if (closed : bool) then getattr "_a_scores"
  else
    rows ← _opic_iscores;
    d ← scores_by_url snd rows ∅;
    ret (VScores d).

(** [frontier_stop()]. *)
Definition frontier_stop : M unit :=
  fun self =>
    ((if _test self then
        h ← h_scores; setattr "_h_scores" h ;;
        a ← a_scores; setattr "_a_scores" a
      else ret tt) ;;
     _graph_close ;;
     _pages_close ;;
     _opic_close ;;
     _freqest_close ;;
     _scheduler_close) self.

(** ** Sequences of calls to the backend *)

(** The four events of the frontier interface. *)
Inductive event :=
| AddSeeds (seeds : list Request)
| PageCrawled (response : Response) (links : list Request)
| RequestError (page : Request)
| GetNextRequests (max_n_requests : nat).

(** Handling one event; only a pull hands requests out. *)
Definition handle (e : event) : M (list (option Request)) :=
  match e with
  | AddSeeds seeds => add_seeds seeds ;; ret []
  | PageCrawled response links => page_crawled response links ;; ret []
  | RequestError page => request_error page ;; ret []
  | GetNextRequests n => get_next_requests n
  end.

(** Handling a sequence of events; the requests handed out, in order. *)
Fixpoint handle_all (es : list event) : M (list (option Request)) :=
  match es with
  | [] => ret []
  | e :: es' => out ← handle e; outs ← handle_all es'; ret (out ++ outs)
  end.

(** The fingerprints of the requests in the answer of a pull. *)
Definition fingerprints (reqs : list (option Request)) : list string :=
  omap (fmap meta_fingerprint) reqs.

(** The fingerprints a run of a pull, or of a sequence of events, hands
    out. *)
Definition handed_out (r : run (list (option Request))) : list string :=
  match result r with
  | Returns reqs => fingerprints reqs
  | Raises _ => []
  end.

(** Any public method; a caller may go on after one of them raised. *)
Inductive method :=
| FrontierStart
| FrontierStop
| Event (e : event)
| HScores
| AScores.

(** The backend after a call, and after a sequence of calls. *)
Definition after (m : method) (self : OpicHitsBackend) : OpicHitsBackend :=
  match m with
  | FrontierStart => final (frontier_start self)
  | FrontierStop => final (frontier_stop self)
  | Event e => final (handle e self)
  | HScores => final (h_scores self)
  | AScores => final (a_scores self)
  end.

Definition after_all (ms : list method) (self : OpicHitsBackend)
  : OpicHitsBackend :=
  foldl (fun b m => after m b) self ms.

(** ** Reading a trace *)

Definition is_graph_start_batch (c : call score rate) : bool :=
  match c with GraphStartBatch => true | _ => false end.
Definition is_graph_end_batch (c : call score rate) : bool :=
  match c with GraphEndBatch => true | _ => false end.
Definition is_graph_add_edge (c : call score rate) : bool :=
  match c with GraphAddEdge _ _ => true | _ => false end.
Definition is_opic_update (c : call score rate) : bool :=
  match c with OpicUpdate => true | _ => false end.
Definition is_debug (c : call score rate) : bool :=
  match c with LogDebug _ => true | _ => false end.

(** The calls of a trace that pass a test, and how many they are. *)
Definition calls_of (p : call score rate -> bool) (t : list (call score rate))
  : list (call score rate) :=
  filter (fun c => p c = true) t.
Global Arguments calls_of p t : simpl never.

Definition count (p : call score rate -> bool) (t : list (call score rate))
  : nat :=
  length (calls_of p t).

(** The calls that open a batch of the graph store, add an edge to it, or
    close a batch of it. *)
Definition is_graph_batch_call (c : call score rate) : bool :=
  is_graph_start_batch c || is_graph_add_edge c || is_graph_end_batch c.

(** The loop of [add_seeds], as a fold of [_add_new_link]. *)
Definition register_all (seeds : list Request) (b : OpicHitsBackend)
  : OpicHitsBackend :=
  foldl (fun b seed => final (_add_new_link seed b)) b seeds.

(** ** Judgements on methods *)

(** [emits I p l m]: from every state that satisfies [I], the method [m]
    returns, in a state that satisfies [I], and the calls it makes that
    pass [p] are [l], in this order. *)
Definition emits {A} (I : OpicHitsBackend -> Prop) (p : call score rate -> bool)
  (l : list (call score rate)) (m : M A) : Prop :=
  forall b, I b ->
    (exists a, result (m b) = Returns a) /\
    calls_of p (trace (m b)) = l /\
    I (final (m b)).

(** An invariant that does not mention the stores: a call to a
    collaborator keeps it. *)
Definition store_free (I : OpicHitsBackend -> Prop) : Prop :=
  forall b b', _pending_requests b = _pending_requests b' ->
               _test b = _test b' -> __dict__ b = __dict__ b' -> I b -> I b'.

(** An invariant on the attributes [_test] and those of [__dict__] only:
    a change of the pending set keeps it as well. *)
Definition attrs_only (I : OpicHitsBackend -> Prop) : Prop :=
  forall b b', _test b = _test b' -> __dict__ b = __dict__ b' -> I b -> I b'.

(** [preserves I m]: [m] keeps [I], whether it returns or raises. *)
Definition preserves {A} (I : OpicHitsBackend -> Prop) (m : M A) : Prop :=
  forall b, I b -> I (final (m b)).

(** [returns m]: [m] raises from no state. *)
Definition returns {A} (m : M A) : Prop :=
  forall b, exists a, result (m b) = Returns a.

(** Two backends that differ at most in their pending sets. *)
Definition same_stores (b b' : OpicHitsBackend) : Prop :=
  _graph b = _graph b' /\ _pages b = _pages b' /\ _opic b = _opic b' /\
  _freqest b = _freqest b' /\ _pagechange b = _pagechange b' /\
  _scheduler b = _scheduler b' /\ _test b = _test b' /\
  __dict__ b = __dict__ b'.

(** [pending_blind m]: what [m] returns and what it does to the stores
    does not depend on the pending set. *)
Definition pending_blind {A} (m : M A) : Prop :=
  forall b b', same_stores b b' ->
    result (m b) = result (m b') /\ same_stores (final (m b)) (final (m b')).

(** ** Further readers of traces and of sequences of events *)

(** The calls made to the graph store, and to the page store. *)
Definition is_graph_call (c : call score rate) : bool :=
  match c with
  | GraphAddNode _ | GraphAddEdge _ _ | GraphStartBatch | GraphEndBatch
  | GraphClose => true
  | _ => false
  end.
Definition is_pages_call (c : call score rate) : bool :=
  match c with
  | PagesAdd _ _ | PagesGet _ | PagesStartBatch | PagesEndBatch
  | PagesClose => true
  | _ => false
  end.

(** The calls made to the change detector. *)
Definition is_pagechange_call (c : call score rate) : bool :=
  match c with PageChangeUpdate _ _ => true | _ => false end.

(** The calls made to the score engine. *)
Definition is_opic_call (c : call score rate) : bool :=
  match c with
  | OpicAddPage _ | OpicGetScores _ | OpicMarkUpdate _ | OpicUpdate
  | OpicIscores | OpicClose => true
  | _ => false
  end.

(** The calls made to the frequency estimator. *)
Definition is_freqest_call (c : call score rate) : bool :=
  match c with
  | FreqAdd _ | FreqRefresh _ _ | FreqFrequency _ | FreqClose => true
  | _ => false
  end.

(** One round of the loop of [page_crawled], as a change of the backend:
    [_add_new_link(link)], then the edge from the crawled page, then
    [end_batch] of the graph store. *)
Definition link_crawled (page_fingerprint : string) (b : OpicHitsBackend)
  (link : Request) : OpicHitsBackend :=
  let fp := meta_fingerprint link in
  let g' := graph_add_node fp (_graph b) in
  let o' := opic_add_page fp g' (_opic b) in
  let f' := freqest_add fp (_freqest b) in
  {| _graph := graph_end_batch (graph_add_edge page_fingerprint fp g');
     _pages := pages_add fp {| pd_url := url link;
                               pd_domain := meta_domain_name link |}
                         (_pages b);
     _opic := o';
     _freqest := f';
     _pagechange := _pagechange b;
     _scheduler :=
       scheduler_set_value fp (opic_get_scores fp o').2
         (scheduler_set_rate fp (freqest_frequency fp f') (_scheduler b));
     _test := _test b;
     _pending_requests := _pending_requests b;
     __dict__ := __dict__ b |}.

(** The page whose rate, or whose value, a call sets in the scheduler. *)
Definition rate_target (c : call score rate) : option string :=
  match c with SchedSetRate fp _ => Some fp | _ => None end.
Definition value_target (c : call score rate) : option string :=
  match c with SchedSetValue fp _ => Some fp | _ => None end.

(** [projects f l m]: [m] returns from every state, and the calls of its
    trace that [f] reads give [l], in this order. *)
Definition projects {A} (f : call score rate -> option string)
  (l : list string) (m : M A) : Prop :=
  forall b, (exists a, result (m b) = Returns a) /\ omap f (trace (m b)) = l.

(** The fingerprints of the requests whose crawl a sequence of events
    reports, and whether the sequence holds a pull. *)
Definition crawled_requests (es : list event) : list string :=
  omap (fun e => match e with
                 | PageCrawled response _ =>
                     Some (meta_fingerprint (request response))
                 | _ => None
                 end) es.
Definition has_pull (es : list event) : bool :=
  existsb (fun e => match e with GetNextRequests _ => true | _ => false end) es.

End Backend.

(** ** Construction from the settings

    [from_manager] reads four settings, prepares the working directory
    and calls the constructor on stores it opens in that directory, or
    in memory.  It is embedded up to the call of the constructor: a run
    gives the arguments of that call, each store described by the module
    of its [SQLite] class and the file it is opened on.

    The settings object is a parameter, read through its [get]; the file
    system is the set of the directories that exist, and whether a
    directory can be created is up to it. *)

Module FromManager.

(** The values of a setting that [from_manager] tells apart. *)
Inductive setting :=
| SNone
| SBool (b : bool)
| SInt (n : Z)
| SStr (s : string).

(** Python truthiness of a setting. *)
Definition truth (v : setting) : bool :=
  match v with
  | SNone => false
  | SBool b => b
  | SInt n => negb (n =? 0)%Z
  | SStr s => truthy (Some s)
  end.

(** The fields of [datetime.datetime.utcnow()] that are formatted. *)
Record datetime := {
  year : nat;
  month : nat;
  day : nat;
  hour : nat;
  minute : nat;
  second : nat }.

(** ['{0:02d}'.format(n)]: at least two digits, padded with a zero. *)
Definition format_02d (n : nat) : string :=
  if (n <? 10)%nat then "0" +:+ pretty n else pretty n.

(** ['crawl-opic-D{0}.{1:02d}.{2:02d}-T{3:02d}.{4:02d}.{5:02d}'.format(
      now.year, now.month, now.day, now.hour, now.minute, now.second)]. *)
Definition default_workdir (now : datetime) : string :=
  "crawl-opic-D" +:+ pretty (year now) +:+ "." +:+ format_02d (month now)
  +:+ "." +:+ format_02d (day now) +:+ "-T" +:+ format_02d (hour now)
  +:+ "." +:+ format_02d (minute now) +:+ "." +:+ format_02d (second now).

(** [s.startswith('/')] and [s.endswith('/')]. *)
Definition startswith_slash (s : string) : bool :=
  match s with
  | String c _ => bool_decide (c = "/"%char)
  | EmptyString => false
  end.

Fixpoint endswith_slash (s : string) : bool :=
  match s with
  | EmptyString => false
  | String c EmptyString => bool_decide (c = "/"%char)
  | String _ s' => endswith_slash s'
  end.

(** [os.path.join(a, b)], of [posixpath]. *)
Definition os_path_join (a b : string) : string :=
  if startswith_slash b then b
  else if bool_decide (a = ""%string) || endswith_slash a then a +:+ b
  else a +:+ "/" +:+ b.

(** The modules whose [SQLite] class [from_manager] instantiates. *)
Inductive dbmodule :=
| graphdb | pagedb | hitsdb | schedulerdb | freqdb | updatesdb | hashdb.

(** [<module>.SQLite(path)], and [<module>.SQLite()] without a path. *)
Record SQLite := { db_module : dbmodule; db_path : option string }.

(** [scheduler.Optimal(rate_value_db=..., freq_db=...)] and
    [scheduler.BestFirst(rate_value_db=...)]. *)
Inductive Scheduler :=
| Optimal (rate_value_db freq_db : SQLite)
| BestFirst (rate_value_db : SQLite).

(** [freqest.Simple(db=..., default_freq=...)]. *)
Record Simple := { simple_db : SQLite; default_freq : Q }.

(** [pagechange.BodySHA1(db=...)]. *)
Record BodySHA1 := { sha1_db : SQLite }.

(** The keyword arguments of the call [cls(manager, ...)]. *)
Record cls := {
  db_graph : SQLite;
  db_pages : SQLite;
  db_hits : SQLite;
  scheduler : Scheduler;
  freq_estimator : Simple;
  change_detector : BodySHA1;
  test : setting }.

(** What [from_manager] does besides reading settings and opening
    stores, in order. *)
Inductive setup_call :=
| UtcNow
| OsPathIsdir (path : string)
| OsMkdir (path : string)
| ManagerDebug (msg : string).

(** [TypeError]: [os.path.isdir] of a working directory that is no
    string; [OSError]: a directory that [os.mkdir] cannot create. *)
Inductive setup_exn := TypeError | OSError.

Inductive built :=
| Built (args : cls)
| Failed (e : setup_exn).

(** A run of [from_manager]: what it returned or raised, the directories
    that exist afterwards, the calls made. *)
Record construction := {
  outcome_of : built;
  directories : gset string;
  calls : list setup_call }.

(** The nested [in_workdir(db, name)], for the [workdir] it closes over. *)
Definition in_workdir (workdir : option string) (db : dbmodule) (name : string)
  : SQLite :=
  match workdir with
  | None => {| db_module := db; db_path := None |}
  | Some w => {| db_module := db; db_path := Some (os_path_join w name) |}
  end.

(** The second half of [from_manager], from the choice of the scheduler
    on. *)
Definition construct (settings_get : string -> setting -> setting)
  (workdir : option string) : cls :=
  let sched :=
    if truth (settings_get "BACKEND_OPIC_SCHEDULER" (SStr "optimal")) then
      Optimal (in_workdir workdir schedulerdb "scheduler.sqlite")
              (in_workdir workdir freqdb "freqs.sqlite")
    else
      BestFirst (in_workdir workdir schedulerdb "scheduler.sqlite") in
  {| db_graph := in_workdir workdir graphdb "graph.sqlite";
     db_pages := in_workdir workdir pagedb "pages.sqlite";
     db_hits := in_workdir workdir hitsdb "hits.sqlite";
     scheduler := sched;
     freq_estimator :=
       {| simple_db := in_workdir workdir updatesdb "updates.sqlite";
          default_freq := DEFAULT_FREQ |};
     change_detector :=
       {| sha1_db := in_workdir workdir hashdb "hash.sqlite" |};
     test := settings_get "BACKEND_TEST" (SBool false) |}.

(** [from_manager(cls, manager)], for the [get] of [manager.settings],
    the time [utcnow] gives, the directories that exist and those
    [os.mkdir] can create. *)
Definition from_manager (settings_get : string -> setting -> setting)
  (now : datetime) (creatable : string -> bool) (dirs : gset string)
  : construction :=
  let in_memory := settings_get "BACKEND_OPIC_IN_MEMORY" (SBool false) in
  if negb (truth in_memory) then
    match settings_get "BACKEND_OPIC_WORKDIR" (SStr (default_workdir now)) with
    | SStr workdir =>
        if bool_decide (workdir ∈ dirs) then
          {| outcome_of := Built (construct settings_get (Some workdir));
             directories := dirs;
             calls := [UtcNow; OsPathIsdir workdir;
                       ManagerDebug ("OPIC backend workdir: " +:+ workdir)] |}
        else if creatable workdir then
          {| outcome_of := Built (construct settings_get (Some workdir));
             directories := {[workdir]} ∪ dirs;
             calls := [UtcNow; OsPathIsdir workdir; OsMkdir workdir;
                       ManagerDebug ("OPIC backend workdir: " +:+ workdir)] |}
        else
          {| outcome_of := Failed OSError;
             directories := dirs;
             calls := [UtcNow; OsPathIsdir workdir; OsMkdir workdir] |}
    | _ =>
        {| outcome_of := Failed TypeError; directories := dirs;
           calls := [UtcNow] |}
    end
  else
    {| outcome_of := Built (construct settings_get None);
       directories := dirs;
       calls := [ManagerDebug "OPIC backend workdir: in-memory"] |}.

(** The stores a call of the constructor is given, in the order they
    were opened. *)
Definition stores (args : cls) : list SQLite :=
  match scheduler args with
  | Optimal rate_value_db freq_db => [rate_value_db; freq_db]
  | BestFirst rate_value_db => [rate_value_db]
  end
  ++ [db_graph args; db_pages args; db_hits args;
      simple_db (freq_estimator args); sha1_db (change_detector args)].

(** The names of the files, in the order the stores are opened. *)
Definition file_names (optimal : bool) : list string :=
  (if optimal then ["scheduler.sqlite"; "freqs.sqlite"]
   else ["scheduler.sqlite"])
  ++ ["graph.sqlite"; "pages.sqlite"; "hits.sqlite"; "updates.sqlite";
      "hash.sqlite"]%string.

(** The directories [os.mkdir] was called on in a run. *)
Definition mkdir_calls (r : construction) : list string :=
  omap (fun c => match c with OsMkdir path => Some path | _ => None end)
       (calls r).

(** Whether a scheduler is the [Optimal] one. *)
Definition is_optimal (s : Scheduler) : bool :=
  match s with Optimal _ _ => true | BestFirst _ => false end.

(** A settings object over a dictionary: [get] gives the value under the
    key, and the default when there is none. *)
Definition dict_settings (d : gmap string setting) (key : string)
  (default_value : setting) : setting :=
  default default_value (d !! key).

(** Two settings objects that answer alike, the working directory apart. *)
Definition same_but_workdir (get get' : string -> setting -> setting) : Prop :=
  forall key d, key <> "BACKEND_OPIC_WORKDIR"%string -> get' key d = get key d.

(** A time whose month, day, hour, minute and second have at most two
    digits, as those of a [datetime] have. *)
Definition two_digits (now : datetime) : Prop :=
  (month now < 100 /\ day now < 100 /\ hour now < 100 /\
   minute now < 100 /\ second now < 100)%nat.

End FromManager.

(** ** The collaborators, as the specification describes them

    The modules [graphdb], [pagedb], [opichits], [freqest], [pagechange]
    and [scheduler] are imported by the backend and are not part of the
    file.  The stores below follow the specification's description of
    each of them; scores and rates are rationals. *)

Module SpecStores.

(** Modelled from the spec: the Graph Store of section 4.1 ([graphdb] is
    missing).  Nodes and directed edges, both registered idempotently;
    between [start_batch] and [end_batch] the adds are staged and become
    visible together at [end_batch]. *)
Record graph := {
  nodes : gset string;
  edges : gset (string * string);
  staged : option (gset string * gset (string * string)) }.

(** Modelled from the spec: [AddNode], section 4.1 ([graphdb] is missing). *)
Definition add_node (fp : string) (g : graph) : graph :=
  match staged g with
  | Some (ns, es) =>
      {| nodes := nodes g; edges := edges g; staged := Some (ns ∪ {[fp]}, es) |}
  | None =>
      {| nodes := nodes g ∪ {[fp]}; edges := edges g; staged := None |}
  end.

(** Modelled from the spec: [AddEdge], section 4.1 ([graphdb] is missing);
    the edge is stored as given. *)
Definition add_edge (src dst : string) (g : graph) : graph :=
  match staged g with
  | Some (ns, es) =>
      {| nodes := nodes g; edges := edges g;
         staged := Some (ns, es ∪ {[(src, dst)]}) |}
  | None =>
      {| nodes := nodes g; edges := edges g ∪ {[(src, dst)]}; staged := None |}
  end.

(** Modelled from the spec: the opening of a batch, section 4.1 ([graphdb]
    is missing). *)
Definition start_batch (g : graph) : graph :=
  match staged g with
  | Some _ => g
  | None => {| nodes := nodes g; edges := edges g; staged := Some (∅, ∅) |}
  end.

(** Modelled from the spec: the commit of a batch, section 4.1 ([graphdb]
    is missing). *)
Definition end_batch (g : graph) : graph :=
  match staged g with
  | Some (ns, es) =>
      {| nodes := nodes g ∪ ns; edges := edges g ∪ es; staged := None |}
  | None => g
  end.

(** Modelled from the spec: the Graph Store as an instance of the
    interface the backend calls ([graphdb] is missing). *)
Global Instance spec_graph : GraphInterface graph := {|
  graph_add_node := add_node;
  graph_add_edge := add_edge;
  graph_start_batch := start_batch;
  graph_end_batch := end_batch;
  graph_close := fun g => g |}.

(** Modelled from the spec: the Page lookup of sections 3 and 6 ([pagedb]
    is missing).  A page is created on first sighting and immutable
    afterwards; the batch bracket only amortises I/O. *)
Global Instance spec_pages : PageDBInterface (gmap string PageData) := {|
  pages_add := fun fp d (p : gmap string PageData) =>
    match p !! fp with Some _ => p | None => <[fp := d]> p end;
  pages_get := fun fp (p : gmap string PageData) => p !! fp;
  pages_start_batch := fun p => p;
  pages_end_batch := fun p => p;
  pages_close := fun p => p |}.

(** Modelled from the spec: the state of the Score Engine of section 4.2
    ([opichits] is missing): per page the hub score, the authority score
    and the cash; and the pages marked as just crawled. *)
Record opic := {
  scores : gmap string (Q * Q * Q);
  marked : gset string }.

(** Modelled from the spec: the state of the Scheduler of section 4.5
    ([scheduler] is missing).  It stores the fingerprint and the two
    inputs of the priority of a page (section 3): its revisit rate, then
    its authority; and the pages that [Delete] removed from scheduling. *)
Record schedule := {
  entries : gmap string (Q * Q);
  removed : gset string }.

(** Modelled from the spec: the composite priority of section 4.5,
    [priority = authority * rate] ([scheduler] is missing). *)
Definition priority (e : Q * Q) : Q := (e.2 * e.1)%Q.

(** Modelled from the spec: the order of [GetNextPages], section 4.5
    ([scheduler] is missing): higher priority first, ties by fingerprint. *)
Definition before (x y : string * (Q * Q)) : bool :=
  if Qeq_bool (priority x.2) (priority y.2) then String.leb x.1 y.1
  else Qle_bool (priority y.2) (priority x.2).

(** Modelled from the spec: the same order as a relation, section 4.5
    ([scheduler] is missing). *)
Definition comes_before (x y : string * (Q * Q)) : Prop := before x y = true.

Global Instance comes_before_dec x y : Decision (comes_before x y).
Proof. unfold comes_before. apply _. Defined.

(** Modelled from the spec: [GetNextPages(k)], section 4.5 ([scheduler] is
    missing): the [k] entries of highest priority.  Every page with an
    entry is eligible: the scheduler is not given the pending set. *)
Definition get_next_pages (k : nat) (s : schedule) : list string :=
  take k (merge_sort comes_before (map_to_list (entries s))).*1.

(** Modelled from the spec: [SetRate], section 4.5 ([scheduler] is
    missing).  It updates one input of the priority of a page; with
    [SetValue] it is the only way a page enters the scheduler, so it
    creates the entry of a page that has none, the other input being zero
    until it is set.  A page that [Delete] removed stays out of
    scheduling: its inputs are not taken. *)
Definition set_rate (fp : string) (r : Q) (s : schedule) : schedule :=
  if decide (fp ∈ removed s) then s
  else {| entries := <[fp := (r, default 0%Q (snd <$> entries s !! fp))]> (entries s);
          removed := removed s |}.

(** Modelled from the spec: [SetValue], section 4.5 ([scheduler] is
    missing): the other input of the priority, in the same way. *)
Definition set_value (fp : string) (v : Q) (s : schedule) : schedule :=
  if decide (fp ∈ removed s) then s
  else {| entries := <[fp := (default 0%Q (fst <$> entries s !! fp), v)]> (entries s);
          removed := removed s |}.

(** Modelled from the spec: [Delete], sections 4.5 and 6 ([scheduler] is
    missing): the page is permanently removed from scheduling. *)
Definition delete_page (fp : string) (s : schedule) : schedule :=
  {| entries := delete fp (entries s); removed := removed s ∪ {[fp]} |}.

(** Modelled from the spec: the Scheduler of section 4.5 as an instance
    of the interface the backend calls ([scheduler] is missing). *)
Global Instance spec_scheduler : SchedulerInterface schedule Q Q := {|
  scheduler_set_rate := set_rate;
  scheduler_set_value := set_value;
  scheduler_delete := delete_page;
  scheduler_get_next_pages := fun k s => (get_next_pages k s, s);
  scheduler_close := fun s => s |}.

(** Modelled from the spec: the Change Detector of section 4.4
    ([pagechange] is missing), over the last digest seen of each page. *)
Definition classify (digest : string -> string) (fp content : string)
  (c : gmap string string) : Status * gmap string string :=
  match c !! fp with
  | None => (NEW, <[fp := digest content]> c)
  | Some d =>
      if decide (d = digest content) then (UNCHANGED, c)
      else (UPDATED, <[fp := digest content]> c)
  end.

Section Parameters.

(** What the specification leaves to the implementation: the initial cash
    of a page, the default rate, one cycle of the score engine (which
    reads the graph), the smoothing of a rate by a new observation of
    change, and the digest of a body. *)
Variable epsilon : Q.
Variable default_freq : Q.
Variable cycle : graph -> opic -> (list string * list string) * opic.
Variable smooth : Q -> list bool -> Q.
Variable digest : string -> string.

(** Modelled from the spec: the operations of the Score Engine, section
    4.2 ([opichits] is missing).  [AddPage] registers a page with zero
    scores and the initial cash, [MarkUpdate] flags it, [GetScores] is a
    snapshot, [Update] runs one cycle. *)
Definition spec_opic : OpicHitsInterface graph opic Q := {|
  opic_add_page := fun fp _ o =>
    match scores o !! fp with
    | Some _ => o
    | None => {| scores := <[fp := (0, 0, epsilon)%Q]> (scores o);
                 marked := marked o |}
    end;
  opic_get_scores := fun fp o =>
    match scores o !! fp with
    | Some (h, a, _) => (h, a)
    | None => (0, 0)%Q
    end;
  opic_mark_update := fun fp _ o =>
    {| scores := scores o; marked := marked o ∪ {[fp]} |};
  opic_update := cycle;
  opic_iscores := fun o =>
    (fun x : string * (Q * Q * Q) => (x.1, x.2.1.1, x.2.1.2))
      <$> map_to_list (scores o);
  opic_close := fun o => o |}.

(** Modelled from the spec: the operations of the Frequency Estimator,
    section 4.3 ([freqest] is missing), over the estimated rate of each
    page and the observations recorded so far, oldest first.  [Add]
    registers a page with the default rate and no history; [Refresh]
    records the observation and smooths the rate when the page changed;
    [Frequency] is the current estimate. *)
Definition spec_freqest : FreqEstimatorInterface (gmap string (Q * list bool)) Q := {|
  freqest_add := fun fp (f : gmap string (Q * list bool)) =>
    match f !! fp with
    | Some _ => f
    | None => <[fp := (default_freq, [])]> f
    end;
  freqest_refresh := fun fp changed (f : gmap string (Q * list bool)) =>
    match f !! fp with
    | Some (r, obs) =>
        <[fp := (if changed then smooth r obs else r, obs ++ [changed])]> f
    | None => f
    end;
  freqest_frequency := fun fp (f : gmap string (Q * list bool)) =>
    match f !! fp with
    | Some (r, _) => r
    | None => default_freq
    end;
  freqest_close := fun f => f |}.

(** Modelled from the spec: the Change Detector as an instance of the
    interface the backend calls ([pagechange] is missing). *)
Definition spec_pagechange : PageChangeInterface (gmap string string) := {|
  pagechange_update := classify digest |}.

End Parameters.

(** A backend over these stores. *)
Abbreviation backend :=
  (@OpicHitsBackend graph (gmap string PageData) opic (gmap string (Q * list bool))
     (gmap string string) schedule Q).

(** A page is registered when the score engine, the page store and the
    estimator know it, and, unless it was removed from scheduling, its
    scheduler entry holds the rate the estimator has for it and the
    authority the score engine has for it. *)
Definition registered (fp : string) (b : backend) : Prop :=
  exists h a cash r obs,
    scores (_opic b) !! fp = Some (h, a, cash) /\
    is_Some (_pages b !! fp) /\
    _freqest b !! fp = Some (r, obs) /\
    (fp ∉ removed (_scheduler b) ->
     entries (_scheduler b) !! fp = Some (r, a)).

(** What stays true of a backend once the page [fp] is out of
    scheduling: it is removed and has no entry, and the nodes [X] are in
    the graph store.  The other collaborators are any. *)
Definition settled {P O F C : Type} (fp : string) (X : gset string)
  (b : @OpicHitsBackend graph P O F C schedule Q) : Prop :=
  (fp ∈ removed (_scheduler b) /\ entries (_scheduler b) !! fp = None) /\
  X ⊆ nodes (_graph b).

(** Two backends with the same stores, the graph store apart. *)
Definition same_registry (b b' : backend) : Prop :=
  _pages b' = _pages b /\ _opic b' = _opic b /\ _freqest b' = _freqest b /\
  _scheduler b' = _scheduler b.

(** *** Stores to replay a run on

    A run on given inputs needs the five parameters fixed.  The cycle
    below is one in which no score changes by more than the negligible
    epsilon, so that [Update] reports no page; the digest of a body is
    the body, a digest without collisions. *)

(** Modelled from the spec: a cycle of the Score Engine that reports no
    changed page, section 4.2 ([opichits] is missing). *)
Definition at_rest (g : graph) (o : opic) : (list string * list string) * opic :=
  (([], []), o).

(** Modelled from the spec: the Score Engine with that cycle and an
    initial cash of one thousandth ([opichits] is missing). *)
Definition replay_opic : OpicHitsInterface graph opic Q :=
  spec_opic (1 # 1000) at_rest.

(** Modelled from the spec: the Frequency Estimator with the backend's
    default rate, and a smoothing that keeps the rate ([freqest] is
    missing). *)
Definition replay_freqest : FreqEstimatorInterface (gmap string (Q * list bool)) Q :=
  spec_freqest DEFAULT_FREQ (fun r _ => r).

(** Modelled from the spec: the Change Detector over bodies as their own
    digests ([pagechange] is missing). *)
Definition replay_pagechange : PageChangeInterface (gmap string string) :=
  spec_pagechange (fun content => content).

(** The backend [__init__] builds over empty stores. *)
Definition fresh (test : bool) : backend :=
  __init__ {| nodes := ∅; edges := ∅; staged := None |} ∅
           {| scores := ∅; marked := ∅ |} {| entries := ∅; removed := ∅ |}
           ∅ ∅ test.

(** A sequence of frontier events handled by a backend over these stores. *)
Definition replay (es : list event) (self : backend)
  : run (rate := Q) (list (option Request)) :=
  handle_all (score_engine := replay_opic) (estimator := replay_freqest)
             (detector := replay_pagechange) es self.

(** A page of the examples, as the frontier passes it to the backend. *)
Definition page (name : string) : Request :=
  {| url := "http://" +:+ name; meta_fingerprint := name;
     meta_domain_name := "example.org" |}.

(** A crawl result for [page name] with the given body. *)
Definition crawled (name content : string) : Response :=
  {| response_url := "http://" +:+ name; body := content;
     response_meta_fingerprint := name; request := page name |}.

(** A fresh backend seeded with the page [a]. *)
Definition seeded : backend :=
  final (replay [AddSeeds [page "a"]] (fresh false)).

(** The seeded backend after its page was crawled with some body. *)
Definition crawled_once : backend :=
  final (replay [PageCrawled (crawled "a" "first body") []] seeded).

(** One pull on a backend over these stores. *)
Definition pull (n : nat) (self : backend) : run (rate := Q) (list (option Request)) :=
  get_next_requests (score_engine := replay_opic) n self.

End SpecStores.

(** * Properties *)

(** Unfolding a method down to the calls it makes.  Only for runs without
    a loop over an unknown list: a loop is first summarised by a lemma. *)
Ltac unfold_methods :=
  cbv beta iota zeta delta
    [frontier_start frontier_stop add_seeds page_crawled request_error
     get_next_requests _get_request_from_id _add_new_link _update_freqest
     _update_page_value h_scores a_scores handle].
Ltac unfold_calls :=
  cbv beta iota zeta delta
    [mbind mret M_bind M_ret bind ret raise does asks logger_debug try_except
     _graph_add_node _graph_add_edge _graph_start_batch _graph_end_batch
     _graph_close _pages_add _pages_get _pages_start_batch _pages_end_batch
     _pages_close _opic_add_page _opic_get_scores _opic_mark_update
     _opic_update _opic_iscores _opic_close _freqest_add _freqest_refresh
     _freqest_frequency _freqest_close _pagechange_update
     _scheduler_set_rate _scheduler_set_value _scheduler_delete
     _scheduler_get_next_pages _scheduler_close
     _pending_requests_remove _pending_requests_update getattr setattr
     getattr__closed result final trace truthy].
Ltac exec := unfold_methods; unfold_calls; cbn.

Section BackendProperties.

Context {G P O F C S score rate : Type}.
Context {graph_store : GraphInterface G} {page_store : PageDBInterface P}
        {score_engine : OpicHitsInterface G O score}
        {estimator : FreqEstimatorInterface F rate}
        {detector : PageChangeInterface C}
        {page_scheduler : SchedulerInterface S score rate}.

Implicit Types self b : @OpicHitsBackend G P O F C S score.
Implicit Types t : list (call score rate).
Implicit Types p : call score rate -> bool.

Local Abbreviation M := (@M G P O F C S score rate).

(** ** Sequencing *)

Lemma bind_result {A B} (m : M A) (k : A -> M B) b a :
  result (m b) = Returns a ->
  result ((m ≫= k) b) = result (k a (final (m b))).
Proof. intros H. unfold mbind, M_bind, bind. by rewrite H. Qed.

Lemma bind_final {A B} (m : M A) (k : A -> M B) b a :
  result (m b) = Returns a ->
  final ((m ≫= k) b) = final (k a (final (m b))).
Proof. intros H. unfold mbind, M_bind, bind. by rewrite H. Qed.

Lemma bind_trace {A B} (m : M A) (k : A -> M B) b a :
  result (m b) = Returns a ->
  trace ((m ≫= k) b) = trace (m b) ++ trace (k a (final (m b))).
Proof. intros H. unfold mbind, M_bind, bind. by rewrite H. Qed.

Lemma bind_raises {A B} (m : M A) (k : A -> M B) b e :
  result (m b) = Raises e ->
  result ((m ≫= k) b) = Raises e /\
  final ((m ≫= k) b) = final (m b) /\
  trace ((m ≫= k) b) = trace (m b).
Proof. intros H. unfold mbind, M_bind, bind. by rewrite H. Qed.

(** ** The calls of a run that pass a test *)

Implicit Types I : @OpicHitsBackend G P O F C S score -> Prop.

Lemma calls_of_app p t1 t2 : calls_of p (t1 ++ t2) = calls_of p t1 ++ calls_of p t2.
Proof. unfold calls_of. by rewrite filter_app. Qed.

Lemma calls_of_cons p c t :
  calls_of p (c :: t) = (if p c then [c] else []) ++ calls_of p t.
Proof.
  unfold calls_of. rewrite filter_cons. destruct (p c); by case_decide.
Qed.

Lemma calls_of_nil p : calls_of p [] = [].
Proof. done. Qed.

Lemma emits_ret {A} I p (a : A) : emits I p [] (mret a).
Proof. intros b Hb. split; [by exists a|done]. Qed.

Lemma emits_does I p c f :
  (forall b, I b -> I (f b)) ->
  emits I p (if p c then [c] else []) (does c f).
Proof.
  intros Hf b Hb. split; [by exists tt|].
  change (trace (does c f b)) with [c].
  rewrite calls_of_cons, calls_of_nil, app_nil_r. split; [done|by apply Hf].
Qed.

Lemma emits_asks {A} I p c (f : _ -> A * _) :
  (forall b, I b -> I (f b).2) ->
  emits I p (if p c then [c] else []) (asks c f).
Proof.
  intros Hf b Hb. split; [by eexists|].
  change (trace (asks c f b)) with [c].
  rewrite calls_of_cons, calls_of_nil, app_nil_r. split; [done|by apply Hf].
Qed.

Lemma emits_debug I p msg :
  emits I p (if p (LogDebug msg) then [LogDebug msg] else []) (logger_debug msg).
Proof.
  intros b Hb. split; [by exists tt|].
  change (trace (logger_debug msg b)) with [LogDebug msg : call score rate].
  by rewrite calls_of_cons, calls_of_nil, app_nil_r.
Qed.

Lemma emits_bind {A B} I p l1 l2 (m : M A) (k : A -> M B) :
  emits I p l1 m -> (forall a, emits I p l2 (k a)) ->
  emits I p (l1 ++ l2) (m ≫= k).
Proof.
  intros Hm Hk b Hb. destruct (Hm b Hb) as ([a Ha] & Hn & Hb').
  destruct (Hk a (final (m b)) Hb') as ([a' Ha'] & Hn' & Hb'').
  rewrite (bind_result _ _ _ a), (bind_trace _ _ _ a), (bind_final _ _ _ a),
    calls_of_app by done.
  split; [by exists a'|by rewrite Hn, Hn'].
Qed.

Lemma emits_for_each {A} I p (out : A -> list (call score rate))
  (body : A -> M unit) l :
  (forall x, emits I p (out x) (body x)) ->
  emits I p (flat_map out l) (for_each l body).
Proof.
  intros Hbody. induction l as [|x l IH]; cbn [for_each flat_map].
  - apply emits_ret.
  - apply emits_bind; auto.
Qed.

Lemma emits_eq {A} I p l l' (m : M A) :
  emits I p l m -> l = l' -> emits I p l' m.
Proof. by intros ? <-. Qed.

(** The removal from the pending set makes no call, and its [KeyError]
    is caught and logged. *)
Lemma emits_pending_remove I p fp msg :
  (forall b, I b -> fp ∈ _pending_requests b ->
             I (with_pending (_pending_requests b ∖ {[fp]}) b)) ->
  p (LogDebug msg) = false ->
  emits I p []
    (try_except (_pending_requests_remove fp)
       (fun e => match e with KeyError => true | _ => false end)
       (logger_debug msg)).
Proof.
  intros HI Hp b Hb. unfold try_except, _pending_requests_remove.
  case_decide; cbn; (split; [by exists tt|]); [by split; [|apply HI]|].
  by rewrite calls_of_cons, Hp.
Qed.

Lemma emits_pending_remove_missing I p fp msg :
  (forall b, I b -> fp ∉ _pending_requests b) ->
  emits I p (if p (LogDebug msg) then [LogDebug msg] else [])
    (try_except (_pending_requests_remove fp)
       (fun e => match e with KeyError => true | _ => false end)
       (logger_debug msg)).
Proof.
  intros HI b Hb. unfold try_except, _pending_requests_remove.
  case_decide; [by destruct (HI b Hb)|]. cbn. split; [by exists tt|].
  by rewrite calls_of_cons, calls_of_nil, app_nil_r.
Qed.

Lemma emits_update_freqest I p fp body :
  store_free I ->
  (forall c, p (PageChangeUpdate fp c) = false) ->
  (forall ch, p (FreqRefresh fp ch) = false) ->
  p (FreqAdd fp) = false -> p (FreqFrequency fp) = false ->
  (forall r, p (SchedSetRate fp r) = false) ->
  emits I p [] (_update_freqest fp body).
Proof.
  intros HI H1 H2 H3 H4 H5 b Hb. split; [|split].
  - unfold _update_freqest. destruct (truthy body); [|by eexists].
    exec. destruct (pagechange_update _ _ _).1; by eexists.
  - unfold _update_freqest. destruct (truthy body); exec.
    + destruct (pagechange_update _ _ _).1; cbn;
        by rewrite !calls_of_cons, ?H1, ?H2, ?H3, ?H4, ?H5.
    + by rewrite !calls_of_cons, ?H3, ?H4, ?H5.
  - apply (HI b); [..|done]; unfold _update_freqest;
      (destruct (truthy body); [|by exec]);
      exec; by destruct (pagechange_update _ _ _).1.
Qed.

(** ** The batch of the graph store in [page_crawled] *)

(** C3, as the code runs: [page_crawled] opens the batch of the graph
    store once, but closes it inside the loop, right after each edge: the
    calls that open, feed and close the batch are one [start_batch]
    followed by an [add_edge], [end_batch] pair per link.  [end_batch] is
    called once per link, not once per call. *)
Theorem page_crawled_closes_batch_per_link response links self :
  calls_of is_graph_batch_call (trace (page_crawled response links self))
  = GraphStartBatch ::
      flat_map (fun link =>
                  [GraphAddEdge (response_meta_fingerprint response)
                                (meta_fingerprint link);
                   GraphEndBatch]) links
  /\ count is_graph_start_batch (trace (page_crawled response links self)) = 1
  /\ count is_graph_end_batch (trace (page_crawled response links self))
     = length links.
Proof.
  assert (Hbatch : calls_of is_graph_batch_call
                     (trace (page_crawled response links self))
    = GraphStartBatch ::
      flat_map (fun link =>
                  [GraphAddEdge (response_meta_fingerprint response)
                                (meta_fingerprint link);
                   GraphEndBatch]) links).
  { assert (Hfree : store_free (fun _ : @OpicHitsBackend G P O F C S score => True))
      by done.
    assert (Hrun : emits (fun _ => True) is_graph_batch_call
      (GraphStartBatch ::
       flat_map (fun link =>
                   [GraphAddEdge (response_meta_fingerprint response)
                                 (meta_fingerprint link);
                    GraphEndBatch]) links)
      (page_crawled response links)).
    { unfold page_crawled. eapply emits_eq.
      - apply emits_bind; [by apply emits_asks|intros _].
        apply emits_bind; [by apply emits_does|intros _].
        apply emits_bind; [by apply emits_does|intros _].
        apply emits_bind; [|intros _].
        { apply (emits_for_each _ _ (fun link =>
                   [GraphAddEdge (response_meta_fingerprint response)
                                 (meta_fingerprint link);
                    GraphEndBatch])).
          intros link b _. split; [by eexists|split; [|done]].
          exec. by rewrite !calls_of_cons. }
        apply emits_bind; [by apply emits_does|intros _].
        apply emits_bind; [by apply emits_does|intros _].
        apply emits_bind; [by apply emits_update_freqest|intros _].
        apply emits_bind; [by apply emits_pending_remove|intros _].
        apply emits_debug.
      - cbn. by rewrite !app_nil_r. }
    by destruct (Hrun self I) as (_ & ? & _). }
  split; [done|]. 
  assert (Hfilter : forall p, (forall c, p c = true -> is_graph_batch_call c = true) ->
    calls_of p (trace (page_crawled response links self))
    = calls_of p (calls_of is_graph_batch_call
                    (trace (page_crawled response links self)))).
  { intros p Hp. unfold calls_of. rewrite list_filter_filter.
    apply list_filter_iff. intros c. split; [auto|by intros [? ?]]. }
  unfold count.
  rewrite (Hfilter is_graph_start_batch), (Hfilter is_graph_end_batch), Hbatch
    by (by intros []).
  rewrite !calls_of_cons. cbn [app is_graph_start_batch is_graph_end_batch].
  clear Hbatch Hfilter.
  split.
  - induction links as [|l links IH]; [done|].
    cbn [flat_map app]. by rewrite !calls_of_cons.
  - induction links as [|l links IH]; [done|].
    cbn [flat_map app] in *. rewrite !calls_of_cons. cbn. by rewrite IH.
Qed.

(** ** The loops of [get_next_requests] *)

Lemma bind_run {A B} (m : M A) (k : A -> M B) b a b' t :
  m b = {| result := Returns a; final := b'; trace := t |} ->
  (m ≫= k) b = {| result := result (k a b'); final := final (k a b');
                  trace := t ++ trace (k a b') |}.
Proof. intros H. unfold mbind, M_bind, bind. by rewrite H. Qed.

Lemma for_each_update_page_value l b :
  for_each l (fun page_id => _update_page_value page_id None) b
  = {| result := Returns tt;
       final := with_scheduler
                  (foldl (fun s page_id =>
                            scheduler_set_value page_id
                              (opic_get_scores page_id (_opic b)).2 s)
                         (_scheduler b) l) b;
       trace := flat_map (fun page_id =>
                            [OpicGetScores page_id;
                             SchedSetValue page_id
                               (opic_get_scores page_id (_opic b)).2]) l |}.
Proof.
  revert b. induction l as [|x l IH]; intros b.
  - by destruct b.
  - cbn [for_each foldl flat_map].
    erewrite bind_run by (exec; reflexivity). by rewrite IH.
Qed.

Lemma map_get_request_from_id l b :
  map_M (rate:=rate) _get_request_from_id l b
  = {| result :=
         Returns ((fun page_id =>
                     (fun d => {| url := pd_url d; meta_fingerprint := page_id;
                                  meta_domain_name := pd_domain d |})
                       <$> pages_get page_id (_pages b)) <$> l);
       final := b;
       trace := PagesGet <$> l |}.
Proof.
  induction l as [|x l IH]; [reflexivity|].
  cbn [map_M fmap list_fmap].
  assert (Hx : _get_request_from_id (rate:=rate) x b
    = {| result := Returns ((fun d => {| url := pd_url d; meta_fingerprint := x;
                                         meta_domain_name := pd_domain d |})
                              <$> pages_get x (_pages b));
         final := b; trace := [PagesGet x] |}).
  { exec. by destruct (pages_get x (_pages b)). }
  erewrite bind_run by apply Hx.
  erewrite bind_run by apply IH. cbn. by rewrite app_nil_r.
Qed.

(** One pull, call by call. *)
Lemma get_next_requests_run n b :
  let u := opic_update (_graph b) (_opic b) in
  let s1 := foldl (fun s page_id =>
                     scheduler_set_value page_id
                       (opic_get_scores page_id u.2).2 s)
                  (_scheduler b) u.1.2 in
  let nx := scheduler_get_next_pages n s1 in
  get_next_requests n b
  = {| result :=
         Returns ((fun page_id =>
                     (fun d => {| url := pd_url d; meta_fingerprint := page_id;
                                  meta_domain_name := pd_domain d |})
                       <$> pages_get page_id (_pages b)) <$> nx.1);
       final := with_pending (_pending_requests b ∪ list_to_set nx.1)
                  (with_scheduler nx.2 (with_opic u.2 b));
       trace := OpicUpdate ::
                flat_map (fun page_id =>
                            [OpicGetScores page_id;
                             SchedSetValue page_id
                               (opic_get_scores page_id u.2).2]) u.1.2
                ++ SchedGetNextPages n :: (PagesGet <$> nx.1)
                ++ [LogDebug "PROFILE GET_NEXT_REQUESTS time"] |}.
Proof.
  intros u s1 nx. unfold get_next_requests.
  erewrite bind_run by reflexivity.
  erewrite bind_run by apply for_each_update_page_value.
  erewrite bind_run by reflexivity.
  erewrite bind_run by reflexivity.
  erewrite bind_run by apply map_get_request_from_id.
  unfold_calls. cbn. by rewrite <- ?app_assoc.
Qed.

Lemma fingerprints_of_requests (pages : P) l fp :
  fp ∈ fingerprints
         ((fun page_id =>
             (fun d => {| url := pd_url d; meta_fingerprint := page_id;
                          meta_domain_name := pd_domain d |})
               <$> pages_get page_id pages) <$> l) ->
  fp ∈ l.
Proof.
  unfold fingerprints. rewrite list_elem_of_omap.
  intros (req & Hreq & Hfp). apply list_elem_of_fmap in Hreq as (id & -> & Hid).
  destruct (pages_get id pages); simplify_eq/=. done.
Qed.

(** ** [get_next_requests] *)

(** The calls of a pull, for any scheduler: one cycle of the score
    engine, the new authority of every page the cycle reports set in the
    scheduler, then the query; one request per page the scheduler names,
    each of them pending afterwards. *)
Lemma get_next_requests_calls max_n_requests self :
  let u := opic_update (_graph self) (_opic self) in
  let s1 := foldl (fun s page_id =>
                     scheduler_set_value page_id
                       (opic_get_scores page_id u.2).2 s)
                  (_scheduler self) u.1.2 in
  let next_pages := (scheduler_get_next_pages max_n_requests s1).1 in
  let r := get_next_requests max_n_requests self in
  length next_pages <= max_n_requests ->
  count is_opic_update (trace r) = 1 /\
  trace r = OpicUpdate ::
            flat_map (fun page_id =>
                        [OpicGetScores page_id;
                         SchedSetValue page_id (opic_get_scores page_id u.2).2])
                     u.1.2
            ++ SchedGetNextPages max_n_requests :: (PagesGet <$> next_pages)
            ++ [LogDebug "PROFILE GET_NEXT_REQUESTS time"] /\
  (exists next_requests,
     result r = Returns next_requests /\
     length next_requests <= max_n_requests /\
     forall fp, fp ∈ fingerprints next_requests ->
                fp ∈ _pending_requests (final r)).
Proof.
  intros u s1 next_pages r Hbound. subst r.
  rewrite get_next_requests_run. fold u s1 next_pages. cbn [result final trace].
  split; [|split; [done|]].
  - unfold count. rewrite calls_of_cons, calls_of_app, calls_of_cons, calls_of_app.
    cbn [is_opic_update app length].
    assert (Hrefresh : forall l (o : O),
      calls_of is_opic_update
        (flat_map (fun page_id =>
                     [OpicGetScores page_id;
                      SchedSetValue (rate:=rate) page_id
                        (opic_get_scores page_id o).2]) l) = []).
    { induction l as [|x l IH]; intros o; [done|].
      cbn [flat_map app]. by rewrite !calls_of_cons, IH. }
    assert (Hget : forall l : list string,
      calls_of (score:=score) (rate:=rate) is_opic_update (PagesGet <$> l) = []).
    { induction l as [|x l IH]; [done|]. by rewrite fmap_cons, calls_of_cons, IH. }
    by rewrite Hrefresh, Hget, calls_of_cons.
  - eexists. split; [done|]. split; [by rewrite length_fmap|].
    intros fp Hfp%fingerprints_of_requests. cbn. set_solver.
Qed.

(** ** [request_error] *)

(** C7: [request_error] makes one call, the deletion of the page from the
    scheduler, and changes nothing else of the backend: graph store, page
    store, score engine, frequency estimator, change detector and pending
    set are as before the call. *)
Theorem request_error_frame page self :
  let r := request_error (rate:=rate) page self in
  result r = Returns tt /\
  trace r = [SchedDelete (meta_fingerprint page)] /\
  _scheduler (final r)
  = scheduler_delete (meta_fingerprint page) (_scheduler self) /\
  _graph (final r) = _graph self /\
  _pages (final r) = _pages self /\
  _opic (final r) = _opic self /\
  _freqest (final r) = _freqest self /\
  _pagechange (final r) = _pagechange self /\
  _pending_requests (final r) = _pending_requests self /\
  _test (final r) = _test self /\
  __dict__ (final r) = __dict__ self.
Proof. cbn. repeat split. Qed.

(** C2, as the code runs: the error of a request does not end its stay in
    the pending set.  A fingerprint handed out by a pull is still pending
    after [request_error] has been processed for it. *)
Theorem request_error_keeps_pending max_n_requests page self :
  let pulled := get_next_requests max_n_requests self in
  meta_fingerprint page ∈ handed_out pulled ->
  meta_fingerprint page
  ∈ _pending_requests (final (request_error (rate:=rate) page (final pulled))).
Proof.
  intros pulled. subst pulled. unfold handed_out.
  rewrite get_next_requests_run. cbn [result final].
  intros Hfp%fingerprints_of_requests. cbn. set_solver.
Qed.

(** ** [_update_freqest] *)

(** C4, amended: for a body that is not empty, the change detector is
    consulted and its verdict dispatched ([NEW]: [add]; [UPDATED]:
    [refresh] with [changed = True]; [UNCHANGED]: [refresh] with
    [changed = False]); for an empty or absent body the change detector is
    not consulted and [add] is invoked.  In both cases the rate of the
    page in the scheduler is then set to the frequency the estimator
    gives after that update. *)
Theorem update_freqest_dispatch page_fingerprint body self :
  let r := _update_freqest page_fingerprint body self in
  let status :=
    (pagechange_update page_fingerprint (default ""%string body)
                       (_pagechange self)).1 in
  let f' :=
    if truthy body then
      match status with
      | NEW => freqest_add page_fingerprint (_freqest self)
      | UPDATED => freqest_refresh page_fingerprint true (_freqest self)
      | UNCHANGED => freqest_refresh page_fingerprint false (_freqest self)
      end
    else freqest_add page_fingerprint (_freqest self) in
  result r = Returns tt /\
  trace r =
    (if truthy body then
       [PageChangeUpdate page_fingerprint (default ""%string body);
        match status with
        | NEW => FreqAdd page_fingerprint
        | UPDATED => FreqRefresh page_fingerprint true
        | UNCHANGED => FreqRefresh page_fingerprint false
        end]
     else [FreqAdd page_fingerprint])
    ++ [FreqFrequency page_fingerprint;
        SchedSetRate page_fingerprint (freqest_frequency page_fingerprint f')] /\
  _freqest (final r) = f' /\
  _scheduler (final r)
  = scheduler_set_rate page_fingerprint
      (freqest_frequency page_fingerprint f') (_scheduler self).
Proof.
  intros r status f'. subst r status f'. unfold _update_freqest.
  destruct (truthy body); [|by exec].
  exec. by destruct (pagechange_update _ _ _).1.
Qed.

(** ** Invariants kept whether a method returns or raises *)

Lemma preserves_ret {A} I (a : A) : preserves I (mret a : M A).
Proof. by intros b. Qed.

Lemma preserves_bind {A B} I (m : M A) (k : A -> M B) :
  preserves I m -> (forall a, preserves I (k a)) -> preserves I (m ≫= k).
Proof.
  intros Hm Hk b Hb. destruct (result (m b)) as [a|e] eqn:Hr.
  - rewrite (bind_final _ _ _ a) by done. by apply Hk, Hm.
  - destruct (bind_raises m k b e Hr) as (_ & -> & _). by apply Hm.
Qed.

Lemma preserves_for_each {A} I (body : A -> M unit) l :
  (forall x, preserves I (body x)) -> preserves I (for_each l body).
Proof.
  intros Hbody. induction l as [|x l IH]; cbn [for_each].
  - apply preserves_ret.
  - apply preserves_bind; auto.
Qed.

Lemma preserves_map_M {A B} I (f : A -> M B) l :
  (forall x, preserves I (f x)) -> preserves I (map_M f l).
Proof.
  intros Hf. induction l as [|x l IH]; cbn [map_M].
  - apply preserves_ret.
  - apply preserves_bind; [done|intros y].
    apply preserves_bind; [done|intros ys]. apply preserves_ret.
Qed.

Lemma preserves_try_except {A} I (m handler : M A) handled :
  preserves I m -> preserves I handler ->
  preserves I (try_except m handled handler).
Proof.
  intros Hm Hh b Hb. unfold try_except.
  destruct (result (m b)) as [a|e]; [by apply Hm|].
  destruct (handled e); [by apply Hh, Hm|by apply Hm].
Qed.

Lemma preserves_scores_by_url I pick rows acc :
  attrs_only I -> preserves I (scores_by_url (rate:=rate) pick rows acc).
Proof.
  intros HI. revert acc. induction rows as [|[[page_id h] a] rows IH]; intros acc.
  - apply preserves_ret.
  - cbn [scores_by_url]. apply preserves_bind; [by intros b Hb|].
    intros [d|]; [apply IH|by intros b Hb].
Qed.

(** A method whose body is a sequence of calls, loops and branches keeps
    an invariant on the attributes as soon as it assigns none. *)
Ltac frame HI :=
  lazymatch goal with
  | |- preserves _ (_ ≫= _) =>
      apply preserves_bind; [frame HI|intros ?; frame HI]
  | |- preserves _ (for_each _ _) =>
      apply preserves_for_each; intros ?; frame HI
  | |- preserves _ (map_M _ _) =>
      apply preserves_map_M; intros ?; frame HI
  | |- preserves _ (try_except _ _ _) =>
      apply preserves_try_except; frame HI
  | |- preserves _ (scores_by_url _ _ _) =>
      by apply preserves_scores_by_url
  | |- preserves _ (if ?c then _ else _) => destruct c; frame HI
  | |- preserves _ (match ?x with Some _ => _ | None => _ end) =>
      destruct x; frame HI
  | |- preserves _ (match ?x with NEW => _ | _ => _ end) =>
      destruct x; frame HI
  | |- preserves _ (match ?x with VScores _ => _ | VStore _ => _ end) =>
      destruct x; frame HI
  | |- preserves _ (_update_freqest _ _) => unfold _update_freqest; frame HI
  | |- preserves _ (_update_page_value _ _) =>
      unfold _update_page_value; frame HI
  | |- preserves _ (_add_new_link _) => unfold _add_new_link; frame HI
  | |- preserves _ (_get_request_from_id _) =>
      unfold _get_request_from_id; frame HI
  | |- preserves _ (getattr__closed _) => unfold getattr__closed; frame HI
  | |- preserves _ (_pending_requests_remove _) =>
      let b := fresh "b" in let Hb := fresh "Hb" in
      intros b Hb; unfold _pending_requests_remove; case_decide;
      by apply (HI b)
  | |- preserves _ (getattr _) =>
      let b := fresh "b" in let Hb := fresh "Hb" in
      intros b Hb; unfold getattr; by destruct (__dict__ b !! _)
  | |- _ =>
      let b := fresh "b" in let Hb := fresh "Hb" in
      intros b Hb; by apply (HI b)
  end.

Lemma preserves_event I e : attrs_only I -> preserves I (handle e).
Proof.
  intros HI. destruct e; cbn [handle].
  - unfold add_seeds. frame HI.
  - unfold page_crawled. frame HI.
  - unfold request_error. frame HI.
  - unfold get_next_requests. frame HI.
Qed.

(** ** The debugging helpers *)

Lemma bind_run_raises {A B} (m : M A) (k : A -> M B) b e b' t :
  m b = {| result := Raises e; final := b'; trace := t |} ->
  (m ≫= k) b = {| result := Raises e; final := b'; trace := t |}.
Proof. intros H. unfold mbind, M_bind, bind. by rewrite H. Qed.

Lemma getattr_missing name b :
  __dict__ b !! name = None ->
  getattr (rate:=rate) name b
  = {| result := Raises (AttributeError name); final := b; trace := [] |}.
Proof. intros H. unfold getattr. by rewrite H. Qed.

Lemma h_scores_raises b :
  __dict__ b !! "_scores"%string = None ->
  h_scores (rate:=rate) b
  = {| result := Raises (AttributeError "_scores"); final := b; trace := [] |}.
Proof. intros H. unfold h_scores. by apply bind_run_raises, getattr_missing. Qed.

Lemma a_scores_raises b :
  __dict__ b !! "_scores"%string = None ->
  a_scores (rate:=rate) b
  = {| result := Raises (AttributeError "_scores"); final := b; trace := [] |}.
Proof. intros H. unfold a_scores. by apply bind_run_raises, getattr_missing. Qed.

Lemma frontier_stop_raises b :
  __dict__ b !! "_scores"%string = None -> _test b = true ->
  frontier_stop (rate:=rate) b
  = {| result := Raises (AttributeError "_scores"); final := b; trace := [] |}.
Proof.
  intros H Ht. unfold frontier_stop. rewrite Ht.
  by apply bind_run_raises, bind_run_raises, h_scores_raises.
Qed.

(** No method assigns [_scores]; none assigns [_test] after [__init__]. *)
Lemma after_keeps_scores_unset test m b :
  __dict__ b !! "_scores"%string = None /\ _test b = test ->
  __dict__ (after (rate:=rate) m b) !! "_scores"%string = None /\
  _test (after (rate:=rate) m b) = test.
Proof.
  set (I := fun b : @OpicHitsBackend G P O F C S score =>
              __dict__ b !! "_scores"%string = None /\ _test b = test).
  assert (HI : attrs_only I).
  { intros b1 b2 Ht Hd [? ?]. unfold I. by rewrite <- Ht, <- Hd. }
  intros Hb. pose proof Hb as [Hd Htest]. assert (HIb : I b) by done.
  destruct m; cbn [after].
  - done.
  - destruct (_test b) eqn:Ht.
    + rewrite frontier_stop_raises by done. cbn. by rewrite Ht.
    + assert (Hclose : preserves I
        ((mret tt : M unit) ≫= fun _ =>
         _graph_close ≫= fun _ => _pages_close ≫= fun _ =>
         _opic_close ≫= fun _ => _freqest_close ≫= fun _ => _scheduler_close))
        by frame HI.
      unfold frontier_stop. rewrite Ht. by apply (Hclose b).
  - by apply (preserves_event I).
  - by rewrite h_scores_raises.
  - by rewrite a_scores_raises.
Qed.

Lemma after_all_keeps_scores_unset test ms b :
  __dict__ b !! "_scores"%string = None /\ _test b = test ->
  __dict__ (after_all (rate:=rate) ms b) !! "_scores"%string = None /\
  _test (after_all (rate:=rate) ms b) = test.
Proof.
  revert b. induction ms as [|m ms IH]; intros b Hb; [done|].
  cbn [after_all foldl]. by apply IH, after_keeps_scores_unset.
Qed.

(** C10: on a backend built by [__init__], whatever methods have been
    called since, [h_scores] and [a_scores] raise [AttributeError] for
    [_scores]; and when the backend was built with [test=True],
    [frontier_stop] raises the same error before it makes any call: no
    store is closed and the backend is left as it was. *)
Theorem scores_helpers_raise db_graph db_pages opic scheduler freq_estimator
  change_detector test ms :
  let self :=
    after_all (rate:=rate) ms
      (__init__ db_graph db_pages opic scheduler freq_estimator
                change_detector test) in
  let tested :=
    after_all (rate:=rate) ms
      (__init__ db_graph db_pages opic scheduler freq_estimator
                change_detector true) in
  result (h_scores (rate:=rate) self) = Raises (AttributeError "_scores") /\
  result (a_scores (rate:=rate) self) = Raises (AttributeError "_scores") /\
  result (frontier_stop (rate:=rate) tested)
  = Raises (AttributeError "_scores") /\
  trace (frontier_stop (rate:=rate) tested) = [] /\
  final (frontier_stop (rate:=rate) tested) = tested.
Proof.
  intros self tested.
  destruct (after_all_keeps_scores_unset test ms
              (__init__ db_graph db_pages opic scheduler freq_estimator
                        change_detector test)) as [Hself _]; [done|].
  destruct (after_all_keeps_scores_unset true ms
              (__init__ db_graph db_pages opic scheduler freq_estimator
                        change_detector true)) as [Htested Htest]; [done|].
  fold self in Hself. fold tested in Htested, Htest.
  by rewrite h_scores_raises, a_scores_raises, frontier_stop_raises.
Qed.

(** ** Methods that do not consult the pending set *)

Lemma same_stores_with_pending s b : same_stores b (with_pending s b).
Proof. by repeat split. Qed.

Lemma blind_ret {A} (a : A) : pending_blind (mret a : M A).
Proof. by intros b b' Hs. Qed.

Lemma blind_bind {A B} (m : M A) (k : A -> M B) :
  pending_blind m -> (forall a, pending_blind (k a)) -> pending_blind (m ≫= k).
Proof.
  intros Hm Hk b b' Hs. destruct (Hm b b' Hs) as [Hr Hf].
  destruct (result (m b)) as [a|e] eqn:Hb; symmetry in Hr.
  - rewrite !(bind_result _ _ _ a), !(bind_final _ _ _ a) by done.
    by apply Hk.
  - destruct (bind_raises m k b e Hb) as (-> & -> & _).
    by destruct (bind_raises m k b' e Hr) as (-> & -> & _).
Qed.

Lemma blind_for_each {A} (body : A -> M unit) l :
  (forall x, pending_blind (body x)) -> pending_blind (for_each l body).
Proof.
  intros Hbody. induction l as [|x l IH]; cbn [for_each].
  - apply blind_ret.
  - apply blind_bind; auto.
Qed.

Lemma blind_map_M {A B} (f : A -> M B) l :
  (forall x, pending_blind (f x)) -> pending_blind (map_M f l).
Proof.
  intros Hf. induction l as [|x l IH]; cbn [map_M].
  - apply blind_ret.
  - apply blind_bind; [done|intros y].
    apply blind_bind; [done|intros ys]. apply blind_ret.
Qed.

(** The removal is the one place where the pending set is read; with its
    [KeyError] caught, what follows does not depend on it. *)
Lemma blind_pending_remove fp msg :
  pending_blind
    (try_except (_pending_requests_remove fp : M unit)
       (fun e => match e with KeyError => true | _ => false end)
       (logger_debug msg)).
Proof.
  intros b b' (?&?&?&?&?&?&?&?).
  unfold try_except, _pending_requests_remove.
  by repeat case_decide.
Qed.

Ltac blind :=
  lazymatch goal with
  | |- pending_blind (_ ≫= _) => apply blind_bind; [blind|intros ?; blind]
  | |- pending_blind (for_each _ _) => apply blind_for_each; intros ?; blind
  | |- pending_blind (map_M _ _) => apply blind_map_M; intros ?; blind
  | |- pending_blind (try_except _ _ _) => apply blind_pending_remove
  | |- pending_blind (if ?c then _ else _) => destruct c; blind
  | |- pending_blind (match ?x with Some _ => _ | None => _ end) =>
      destruct x; blind
  | |- pending_blind (match ?x with NEW => _ | _ => _ end) =>
      destruct x; blind
  | |- pending_blind (_update_freqest _ _) => unfold _update_freqest; blind
  | |- pending_blind (_update_page_value _ _) =>
      unfold _update_page_value; blind
  | |- pending_blind (_add_new_link _) => unfold _add_new_link; blind
  | |- pending_blind (_get_request_from_id _) =>
      unfold _get_request_from_id; blind
  | |- _ =>
      let Hs := fresh "Hs" in
      intros ? ? Hs; destruct Hs as (?&?&?&?&?&?&?&?);
      split; [cbn; congruence|repeat split; cbn; congruence]
  end.

Lemma blind_page_crawled response links :
  pending_blind (page_crawled (rate:=rate) response links).
Proof. unfold page_crawled. blind. Qed.

(** A pull does not consult the pending set either: what it returns is
    the same whatever is pending. *)
Lemma blind_get_next_requests n :
  pending_blind (get_next_requests n : M _).
Proof. unfold get_next_requests. blind. Qed.

(** ** The frontier events return

    In the embedding: a request carries its fingerprint and its domain
    name, and a collaborator answers as its interface says.  A request
    without one of these keys, or a score engine that answers
    [get_scores] with something else than a pair, makes the source raise;
    both are outside the typed inputs. *)

Lemma returns_ret {A} (a : A) : returns (mret a : M A).
Proof. intros b. by exists a. Qed.

Lemma returns_bind {A B} (m : M A) (k : A -> M B) :
  returns m -> (forall a, returns (k a)) -> returns (m ≫= k).
Proof.
  intros Hm Hk b. destruct (Hm b) as [a Ha].
  rewrite (bind_result _ _ _ a) by done. apply Hk.
Qed.

Lemma returns_for_each {A} (body : A -> M unit) l :
  (forall x, returns (body x)) -> returns (for_each l body).
Proof.
  intros Hbody. induction l as [|x l IH]; cbn [for_each].
  - apply returns_ret.
  - apply returns_bind; auto.
Qed.

Lemma returns_map_M {A B} (f : A -> M B) l :
  (forall x, returns (f x)) -> returns (map_M f l).
Proof.
  intros Hf. induction l as [|x l IH]; cbn [map_M].
  - apply returns_ret.
  - apply returns_bind; [done|intros y].
    apply returns_bind; [done|intros ys]. apply returns_ret.
Qed.

Lemma returns_pending_remove fp msg :
  returns
    (try_except (_pending_requests_remove fp : M unit)
       (fun e => match e with KeyError => true | _ => false end)
       (logger_debug msg)).
Proof.
  intros b. unfold try_except, _pending_requests_remove.
  case_decide; by exists tt.
Qed.

Ltac total :=
  lazymatch goal with
  | |- returns (_ ≫= _) => apply returns_bind; [total|intros ?; total]
  | |- returns (for_each _ _) => apply returns_for_each; intros ?; total
  | |- returns (map_M _ _) => apply returns_map_M; intros ?; total
  | |- returns (try_except _ _ _) => apply returns_pending_remove
  | |- returns (if ?c then _ else _) => destruct c; total
  | |- returns (match ?x with Some _ => _ | None => _ end) =>
      destruct x; total
  | |- returns (match ?x with NEW => _ | _ => _ end) => destruct x; total
  | |- returns (_update_freqest _ _) => unfold _update_freqest; total
  | |- returns (_update_page_value _ _) => unfold _update_page_value; total
  | |- returns (_add_new_link _) => unfold _add_new_link; total
  | |- returns (_get_request_from_id _) =>
      unfold _get_request_from_id; total
  | |- _ => intros ?; by eexists
  end.

Lemma returns_event e : returns (handle (rate:=rate) e).
Proof.
  destruct e; cbn [handle].
  - unfold add_seeds. total.
  - unfold page_crawled. total.
  - unfold request_error. total.
  - unfold get_next_requests. total.
Qed.

Lemma returns_handle_all es : returns (handle_all (rate:=rate) es).
Proof.
  induction es as [|e es IH]; cbn [handle_all]; [apply returns_ret|].
  apply returns_bind; [apply returns_event|intros out].
  apply returns_bind; [done|intros outs]. apply returns_ret.
Qed.

(** Only a pull hands requests out. *)
Lemma handed_out_not_pull e b :
  (forall n, e <> GetNextRequests n) -> handed_out (handle (rate:=rate) e b) = [].
Proof.
  intros He. unfold handed_out.
  destruct e as [seeds|response links|page|n]; cbn [handle];
    [| | |by destruct (He n)].
  - assert (Hm : returns (add_seeds seeds : M unit))
      by (unfold add_seeds; total).
    destruct (Hm b) as [a Ha]. by rewrite (bind_result _ _ _ a).
  - assert (Hm : returns (page_crawled response links : M unit))
      by (unfold page_crawled; total).
    destruct (Hm b) as [a Ha]. by rewrite (bind_result _ _ _ a).
  - done.
Qed.

(** A sequence of events, one event at a time. *)
Lemma handle_all_cons e es b :
  handed_out (handle_all (rate:=rate) (e :: es) b)
  = handed_out (handle e b) ++ handed_out (handle_all es (final (handle e b)))
  /\ trace (handle_all (rate:=rate) (e :: es) b)
     = trace (handle e b) ++ trace (handle_all es (final (handle e b)))
  /\ final (handle_all (rate:=rate) (e :: es) b)
     = final (handle_all es (final (handle e b))).
Proof.
  destruct (returns_event e b) as [out Hout].
  destruct (returns_handle_all es (final (handle e b))) as [outs Houts].
  cbn [handle_all]. unfold handed_out.
  rewrite (bind_result _ _ _ out), (bind_trace _ _ _ out),
    (bind_final _ _ _ out) by done.
  rewrite (bind_result _ _ _ outs), (bind_trace _ _ _ outs),
    (bind_final _ _ _ outs) by done.
  rewrite Hout, Houts. cbn. unfold fingerprints.
  by rewrite omap_app, app_nil_r.
Qed.

(** ** [add_seeds], step by step *)

Lemma add_new_link_final link b :
  let fp := meta_fingerprint link in
  let g' := graph_add_node fp (_graph b) in
  let o' := opic_add_page fp g' (_opic b) in
  let f' := freqest_add fp (_freqest b) in
  final (_add_new_link (rate:=rate) link b)
  = {| _graph := g';
       _pages := pages_add fp {| pd_url := url link;
                                 pd_domain := meta_domain_name link |}
                           (_pages b);
       _opic := o';
       _freqest := f';
       _pagechange := _pagechange b;
       _scheduler :=
         scheduler_set_value fp (opic_get_scores fp o').2
           (scheduler_set_rate fp (freqest_frequency fp f') (_scheduler b));
       _test := _test b;
       _pending_requests := _pending_requests b;
       __dict__ := __dict__ b |}.
Proof. reflexivity. Qed.

Lemma add_seeds_final seeds b :
  final (add_seeds (rate:=rate) seeds b)
  = with_pages (pages_end_batch (_pages (register_all seeds
        (with_pages (pages_start_batch (_pages b))
           (with_graph (graph_start_batch (_graph b)) b)))))
      (with_graph (graph_end_batch (_graph (register_all seeds
        (with_pages (pages_start_batch (_pages b))
           (with_graph (graph_start_batch (_graph b)) b)))))
        (register_all seeds
           (with_pages (pages_start_batch (_pages b))
              (with_graph (graph_start_batch (_graph b)) b)))).
Proof.
  unfold add_seeds.
  rewrite (bind_final _ _ _ tt) by done.
  rewrite (bind_final _ _ _ tt) by done.
  set (loop := for_each seeds
                (fun seed => _add_new_link (rate:=rate) seed ≫= fun _ => mret tt)).
  assert (Hres : forall b0, result (loop b0) = Returns tt).
  { intros b0. assert (Hm : returns loop) by (unfold loop; total).
    by destruct (Hm b0) as [[] ?]. }
  assert (Hfin : forall b0, final (loop b0) = register_all seeds b0).
  { unfold loop. clear. induction seeds as [|seed seeds IH]; intros b0; [done|].
    cbn [for_each register_all foldl].
    rewrite (bind_final _ _ _ tt) by done. by rewrite IH. }
  rewrite (bind_final _ _ _ tt) by done.
  rewrite (bind_final _ _ _ tt) by done.
  rewrite (bind_final _ _ _ tt) by done.
  by rewrite Hfin.
Qed.

(** ** [page_crawled] without a pending request *)

(** The loop of [page_crawled] returns, and is a fold of [link_crawled]. *)
Lemma page_crawled_loop page_fingerprint links b :
  let loop :=
    for_each links (fun link =>
      _add_new_link (rate:=rate) link ≫= fun link_fingerprint =>
      _graph_add_edge page_fingerprint link_fingerprint ≫= fun _ =>
      _graph_end_batch) in
  result (loop b) = Returns tt /\
  final (loop b) = foldl (link_crawled page_fingerprint) b links.
Proof.
  revert b. induction links as [|link links IH]; intros b; [done|].
  cbn [for_each foldl].
  destruct (IH (link_crawled page_fingerprint b link)) as [Hres Hfin].
  by rewrite (bind_result _ _ _ tt), (bind_final _ _ _ tt) by reflexivity.
Qed.

(** [_update_freqest] for a body, as a change of the backend. *)
Lemma update_freqest_final page_fingerprint content b :
  let verdict := pagechange_update page_fingerprint content (_pagechange b) in
  let f' :=
    if truthy (Some content) then
      match verdict.1 with
      | NEW => freqest_add page_fingerprint (_freqest b)
      | UPDATED => freqest_refresh page_fingerprint true (_freqest b)
      | UNCHANGED => freqest_refresh page_fingerprint false (_freqest b)
      end
    else freqest_add page_fingerprint (_freqest b) in
  let r := _update_freqest (rate:=rate) page_fingerprint (Some content) b in
  result r = Returns tt /\
  final r
  = with_scheduler
      (scheduler_set_rate page_fingerprint
         (freqest_frequency page_fingerprint f') (_scheduler b))
      (with_freqest f'
         (with_pagechange
            (if truthy (Some content) then verdict.2 else _pagechange b) b)).
Proof.
  intros verdict f' r. subst verdict f' r. unfold _update_freqest.
  destruct (truthy (Some content)) eqn:Hbody.
  - exec. by destruct (pagechange_update _ _ _).1.
  - exec. by destruct b.
Qed.

(** The end of [page_crawled] for a request that is not pending leaves
    the backend as it is. *)
Lemma page_crawled_tail_missing fp msg msg' b :
  fp ∉ _pending_requests b ->
  final ((try_except (_pending_requests_remove fp : M unit)
            (fun e => match e with KeyError => true | _ => false end)
            (logger_debug msg)
          ≫= fun _ => logger_debug msg') b)
  = b.
Proof.
  intros Hfp. unfold mbind, M_bind, bind, try_except, _pending_requests_remove.
  rewrite decide_False by done. by destruct b.
Qed.

(** [page_crawled] up to the removal from the pending set, as a change
    of the backend. *)
Lemma page_crawled_updates response links self :
  let page_fingerprint := response_meta_fingerprint response in
  let linked :=
    foldl (link_crawled page_fingerprint)
          (with_graph (graph_start_batch (_graph self))
             (with_pages (pages_start_batch (_pages self)) self)) links in
  let marked :=
    with_opic (opic_mark_update page_fingerprint (_graph linked) (_opic linked))
      (with_pages (pages_end_batch (_pages linked)) linked) in
  let tail : M unit :=
    try_except
      (_pending_requests_remove (meta_fingerprint (request response)))
      (fun e => match e with KeyError => true | _ => false end)
      (logger_debug (response_url response +:+ " was crawled without request"))
    ≫= fun _ => logger_debug "PROFILE PAGE_CRAWLED time" in
  final (page_crawled (rate:=rate) response links self)
  = final (tail (final (_update_freqest (rate:=rate) page_fingerprint
                          (Some (body response)) marked))).
Proof.
  intros page_fingerprint linked marked tail. unfold page_crawled.
  fold page_fingerprint.
  rewrite (bind_final _ _ _ (opic_get_scores page_fingerprint (_opic self)))
    by reflexivity.
  rewrite (bind_final _ _ _ tt) by reflexivity.
  rewrite (bind_final _ _ _ tt) by reflexivity.
  rewrite (bind_final _ _ _ tt) by apply page_crawled_loop.
  rewrite (proj2 (page_crawled_loop _ _ _)).
  rewrite (bind_final _ _ _ tt) by reflexivity.
  rewrite (bind_final _ _ _ tt) by reflexivity.
  rewrite (bind_final _ _ _ tt) by apply update_freqest_final.
  reflexivity.
Qed.

(** C9: when the fingerprint of the request is not pending,
    [page_crawled] still returns: the [KeyError] of the removal is caught
    and logged, the pending set is left as it was, and the updates are
    applied.  The graph store, the page store, the score engine, the
    estimator and the scheduler have taken every link, in order; the
    crawled page is marked in the score engine; the change detector has
    classified its body when there is one, the estimator has taken the
    verdict and the scheduler the new rate.  Every store ends in the
    state it reaches when the request is pending. *)
Theorem page_crawled_without_request response links self :
  let fp := meta_fingerprint (request response) in
  let page_fingerprint := response_meta_fingerprint response in
  let r := page_crawled (rate:=rate) response links self in
  let solicited :=
    page_crawled (rate:=rate) response links
      (with_pending (_pending_requests self ∪ {[fp]}) self) in
  let linked :=
    foldl (link_crawled page_fingerprint)
          (with_graph (graph_start_batch (_graph self))
             (with_pages (pages_start_batch (_pages self)) self)) links in
  let verdict :=
    pagechange_update page_fingerprint (body response) (_pagechange self) in
  let f' :=
    if truthy (Some (body response)) then
      match verdict.1 with
      | NEW => freqest_add page_fingerprint (_freqest linked)
      | UPDATED => freqest_refresh page_fingerprint true (_freqest linked)
      | UNCHANGED => freqest_refresh page_fingerprint false (_freqest linked)
      end
    else freqest_add page_fingerprint (_freqest linked) in
  fp ∉ _pending_requests self ->
  result r = Returns tt /\
  calls_of is_debug (trace r)
  = [LogDebug (response_url response +:+ " was crawled without request");
     LogDebug "PROFILE PAGE_CRAWLED time"] /\
  final r
  = {| _graph := _graph linked;
       _pages := pages_end_batch (_pages linked);
       _opic := opic_mark_update page_fingerprint (_graph linked) (_opic linked);
       _freqest := f';
       _pagechange :=
         if truthy (Some (body response)) then verdict.2 else _pagechange self;
       _scheduler :=
         scheduler_set_rate page_fingerprint
           (freqest_frequency page_fingerprint f') (_scheduler linked);
       _test := _test self;
       _pending_requests := _pending_requests self;
       __dict__ := __dict__ self |} /\
  same_stores (final r) (final solicited) /\
  result solicited = Returns tt.
Proof.
  intros fp page_fingerprint r solicited linked verdict f' Hfp.
  set (I := fun b : @OpicHitsBackend G P O F C S score =>
              _pending_requests b = _pending_requests self).
  assert (HI : store_free I).
  { intros b1 b2 Hp _ _ Hb1. unfold I. by rewrite <- Hp. }
  assert (Hrun : emits I is_debug
    [LogDebug (response_url response +:+ " was crawled without request");
     LogDebug "PROFILE PAGE_CRAWLED time"]
    (page_crawled response links)).
  { unfold page_crawled. eapply emits_eq.
    - apply emits_bind; [by apply emits_asks|intros _].
      apply emits_bind; [by apply emits_does|intros _].
      apply emits_bind; [by apply emits_does|intros _].
      apply emits_bind; [|intros _].
      { apply (emits_for_each _ _ (fun _ => [])).
        intros link b Hb. split; [by eexists|split; [|done]].
        exec. by rewrite !calls_of_cons. }
      apply emits_bind; [by apply emits_does|intros _].
      apply emits_bind; [by apply emits_does|intros _].
      apply emits_bind; [by apply emits_update_freqest|intros _].
      apply emits_bind; [|intros _; apply emits_debug].
      apply emits_pending_remove_missing. intros b Hb. unfold I in Hb.
      by rewrite Hb.
    - cbn. clear. by induction links. }
  destruct (Hrun self) as ([[] Hres] & Hcalls & Hpending); [done|].
  destruct (blind_page_crawled response links self
              (with_pending (_pending_requests self ∪ {[fp]}) self)
              (same_stores_with_pending _ _)) as [Hsame Hstores].
  fold r in Hres, Hcalls, Hpending, Hsame, Hstores.
  fold solicited in Hsame, Hstores.
  split; [done|]. split; [done|]. split; [|split; [done|by rewrite <- Hsame]].
  subst r. rewrite page_crawled_updates. fold page_fingerprint linked.
  rewrite (proj2 (update_freqest_final _ _ _)).
  assert (Hlinked : _pending_requests linked = _pending_requests self
                    /\ _pagechange linked = _pagechange self
                    /\ _test linked = _test self
                    /\ __dict__ linked = __dict__ self).
  { subst linked. clear. induction links as [|link links IH] using rev_ind;
      [done|]. by rewrite foldl_snoc. }
  destruct Hlinked as (Hp & Hc & Ht & Hd).
  rewrite page_crawled_tail_missing by (cbn; by rewrite Hp).
  unfold with_scheduler, with_freqest, with_pagechange, with_opic, with_pages.
  cbn. by rewrite Hp, Hc, Ht, Hd.
Qed.

(** * Further properties of the backend *)

(** ** The store calls of [add_seeds] and [page_crawled] *)

Lemma flat_map_singleton {A B} (f : A -> B) (l : list A) :
  flat_map (fun x => [f x]) l = f <$> l.
Proof. induction l as [|x l IH]; [done|]. cbn. by rewrite IH. Qed.

(** [add_seeds] brackets its work on the graph store and on the page
    store: each store sees its [start_batch], then one addition per seed
    in the order of the seeds, then its [end_batch], and no other call. *)
Theorem add_seeds_brackets_batches seeds self :
  let r := add_seeds (rate:=rate) seeds self in
  result r = Returns tt /\
  calls_of is_graph_call (trace r)
  = GraphStartBatch ::
      ((fun seed => GraphAddNode (meta_fingerprint seed)) <$> seeds)
      ++ [GraphEndBatch] /\
  calls_of is_pages_call (trace r)
  = PagesStartBatch ::
      ((fun seed => PagesAdd (meta_fingerprint seed)
                      {| pd_url := url seed;
                         pd_domain := meta_domain_name seed |}) <$> seeds)
      ++ [PagesEndBatch].
Proof.
  intros r. subst r.
  assert (Hrun : forall p (out : Request -> list (call score rate)),
    (forall seed b, calls_of p (trace (_add_new_link seed b)) = out seed) ->
    emits (fun _ => True) p
      ((if p GraphStartBatch then [GraphStartBatch] else []) ++
       (if p PagesStartBatch then [PagesStartBatch] else []) ++
       flat_map out seeds ++
       (if p GraphEndBatch then [GraphEndBatch] else []) ++
       (if p PagesEndBatch then [PagesEndBatch] else []) ++
       (if p (LogDebug "PROFILE ADD_SEEDS time")
        then [LogDebug "PROFILE ADD_SEEDS time"] else []))
      (add_seeds seeds)).
  { intros p out Hout. unfold add_seeds.
    apply emits_bind; [by apply emits_does|intros _].
    apply emits_bind; [by apply emits_does|intros _].
    apply emits_bind; [|intros _].
    { apply emits_for_each. intros seed b _.
      split; [by eexists|split; [|done]].
      rewrite (bind_trace _ _ _ (meta_fingerprint seed)) by done.
      cbn [trace mret M_ret ret]. by rewrite app_nil_r. }
    apply emits_bind; [by apply emits_does|intros _].
    apply emits_bind; [by apply emits_does|intros _].
    apply emits_debug. }
  split; [|split].
  - assert (Hout : forall seed b,
      calls_of (fun _ => false) (trace (_add_new_link (rate:=rate) seed b)) = [])
      by (intros seed b; exec; by rewrite !calls_of_cons).
    by destruct (Hrun (fun _ => false) (fun _ => []) Hout self I)
      as ([[] Hres] & _).
  - assert (Hout : forall seed b,
      calls_of is_graph_call (trace (_add_new_link (rate:=rate) seed b))
      = [GraphAddNode (meta_fingerprint seed)])
      by (intros seed b; exec; by rewrite !calls_of_cons).
    destruct (Hrun is_graph_call _ Hout self I) as (_ & -> & _).
    cbn. by rewrite flat_map_singleton.
  - assert (Hout : forall seed b,
      calls_of is_pages_call (trace (_add_new_link (rate:=rate) seed b))
      = [PagesAdd (meta_fingerprint seed)
           {| pd_url := url seed; pd_domain := meta_domain_name seed |}])
      by (intros seed b; exec; by rewrite !calls_of_cons).
    destruct (Hrun is_pages_call _ Hout self I) as (_ & -> & _).
    cbn. by rewrite flat_map_singleton.
Qed.

Lemma emits_pagechange_update_freqest I fp body :
  store_free I ->
  emits I is_pagechange_call
    (if truthy body then [PageChangeUpdate fp (default ""%string body)] else [])
    (_update_freqest fp body).
Proof.
  intros HI b Hb. split; [|split].
  - unfold _update_freqest. destruct (truthy body); [|by eexists].
    exec. destruct (pagechange_update _ _ _).1; by eexists.
  - unfold _update_freqest. destruct (truthy body); exec.
    + destruct (pagechange_update _ _ _).1; cbn; by rewrite !calls_of_cons.
    + by rewrite !calls_of_cons.
  - apply (HI b); [..|done]; unfold _update_freqest;
      (destruct (truthy body); [|by exec]);
      exec; by destruct (pagechange_update _ _ _).1.
Qed.

(** The calls of [page_crawled] that pass a test which no log message
    passes, given those of one round of its loop and those of
    [_update_freqest]. *)
Lemma page_crawled_emits p out upd response links :
  let page_fingerprint := response_meta_fingerprint response in
  (forall link b,
     calls_of p (trace ((_add_new_link (rate:=rate) link ≫= fun link_fingerprint =>
                         _graph_add_edge page_fingerprint link_fingerprint ≫= fun _ =>
                         _graph_end_batch) b)) = out link) ->
  emits (fun _ => True) p upd
    (_update_freqest page_fingerprint (Some (body response)) : M unit) ->
  (forall msg, p (LogDebug msg) = false) ->
  emits (fun _ => True) p
    ((if p (OpicGetScores page_fingerprint)
      then [OpicGetScores page_fingerprint] else []) ++
     (if p PagesStartBatch then [PagesStartBatch] else []) ++
     (if p GraphStartBatch then [GraphStartBatch] else []) ++
     flat_map out links ++
     (if p PagesEndBatch then [PagesEndBatch] else []) ++
     (if p (OpicMarkUpdate page_fingerprint)
      then [OpicMarkUpdate page_fingerprint] else []) ++
     upd)
    (page_crawled response links).
Proof.
  intros page_fingerprint Hout Hupd Hlog. unfold page_crawled.
  fold page_fingerprint.
  apply emits_bind; [by apply emits_asks|intros _].
  apply emits_bind; [by apply emits_does|intros _].
  apply emits_bind; [by apply emits_does|intros _].
  apply emits_bind; [|intros _].
  { apply emits_for_each. intros link b _.
    split; [by eexists|split; [apply Hout|done]]. }
  apply emits_bind; [by apply emits_does|intros _].
  apply emits_bind; [by apply emits_does|intros _].
  rewrite <- (app_nil_r upd).
  apply emits_bind; [done|intros _].
  change (@nil (call score rate)) with (@nil (call score rate) ++ []).
  apply emits_bind; [by apply emits_pending_remove|intros _].
  eapply emits_eq; [apply emits_debug|by rewrite Hlog].
Qed.

(** [page_crawled] brackets its work on the page store: [start_batch],
    one addition per link in the order of the links, [end_batch].  On the
    graph store it opens a batch and then, per link, registers the link
    as a node, adds the edge from the crawled page to it and closes the
    batch: [add_node] is called for the links and for nothing else. *)
Theorem page_crawled_store_calls response links self :
  let page_fingerprint := response_meta_fingerprint response in
  let r := page_crawled (rate:=rate) response links self in
  calls_of is_pages_call (trace r)
  = PagesStartBatch ::
      ((fun link => PagesAdd (meta_fingerprint link)
                      {| pd_url := url link;
                         pd_domain := meta_domain_name link |}) <$> links)
      ++ [PagesEndBatch] /\
  calls_of is_graph_call (trace r)
  = GraphStartBatch ::
      flat_map (fun link =>
                  [GraphAddNode (meta_fingerprint link);
                   GraphAddEdge page_fingerprint (meta_fingerprint link);
                   GraphEndBatch]) links.
Proof.
  intros page_fingerprint r. subst r. split.
  - assert (Hout : forall link b,
      calls_of is_pages_call
        (trace ((_add_new_link (rate:=rate) link ≫= fun link_fingerprint =>
                 _graph_add_edge page_fingerprint link_fingerprint ≫= fun _ =>
                 _graph_end_batch) b))
      = [PagesAdd (meta_fingerprint link)
           {| pd_url := url link; pd_domain := meta_domain_name link |}])
      by (intros link b; exec; by rewrite !calls_of_cons).
    destruct (page_crawled_emits is_pages_call _ [] response links Hout)
      with (b := self) as (_ & -> & _); [|done|done|].
    + by apply emits_update_freqest.
    + cbn. rewrite ?app_nil_r. by rewrite flat_map_singleton.
  - assert (Hout : forall link b,
      calls_of is_graph_call
        (trace ((_add_new_link (rate:=rate) link ≫= fun link_fingerprint =>
                 _graph_add_edge page_fingerprint link_fingerprint ≫= fun _ =>
                 _graph_end_batch) b))
      = [GraphAddNode (meta_fingerprint link);
         GraphAddEdge page_fingerprint (meta_fingerprint link);
         GraphEndBatch])
      by (intros link b; exec; by rewrite !calls_of_cons).
    destruct (page_crawled_emits is_graph_call _ [] response links Hout)
      with (b := self) as (_ & -> & _); [|done|done|].
    + by apply emits_update_freqest.
    + cbn. by rewrite ?app_nil_r.
Qed.

(** The change detector is consulted by [page_crawled] only, once, for
    the crawled page and its body, and only when the body is not empty:
    no link, no seed and no pull is ever classified. *)
Theorem change_detector_calls e self :
  calls_of is_pagechange_call (trace (handle (rate:=rate) e self))
  = match e with
    | PageCrawled response _ =>
        if truthy (Some (body response))
        then [PageChangeUpdate (response_meta_fingerprint response)
                               (body response)]
        else []
    | _ => []
    end.
Proof.
  destruct e as [seeds|response links|page|n].
  - assert (Hrun : emits (fun _ => True) is_pagechange_call []
                     (handle (rate:=rate) (AddSeeds seeds))).
    { cbn [handle]. unfold add_seeds. eapply emits_eq.
      - apply emits_bind; [|intros _; apply emits_ret].
        apply emits_bind; [by apply emits_does|intros _].
        apply emits_bind; [by apply emits_does|intros _].
        apply emits_bind; [|intros _].
        { apply (emits_for_each _ _ (fun _ => [])). intros seed b _.
          split; [by eexists|split; [|done]]. exec. by rewrite !calls_of_cons. }
        apply emits_bind; [by apply emits_does|intros _].
        apply emits_bind; [by apply emits_does|intros _].
        apply emits_debug.
      - cbn. clear. by induction seeds. }
    by destruct (Hrun self I) as (_ & -> & _).
  - assert (Hout : forall link b,
      calls_of is_pagechange_call
        (trace ((_add_new_link (rate:=rate) link ≫= fun link_fingerprint =>
                 _graph_add_edge (response_meta_fingerprint response)
                   link_fingerprint ≫= fun _ =>
                 _graph_end_batch) b))
      = []) by (intros link b; exec; by rewrite !calls_of_cons).
    assert (Hrun : emits (fun _ => True) is_pagechange_call
      (if truthy (Some (body response))
       then [PageChangeUpdate (response_meta_fingerprint response) (body response)]
       else [])
      (handle (rate:=rate) (PageCrawled response links))).
    { cbn [handle]. eapply emits_eq.
      - apply emits_bind; [|intros _; apply emits_ret].
        apply (page_crawled_emits is_pagechange_call (fun _ => [])
                 (if truthy (Some (body response))
                  then [PageChangeUpdate (response_meta_fingerprint response)
                                         (body response)]
                  else [])
                 response links Hout); [|done].
        by apply (emits_pagechange_update_freqest _ _ (Some (body response))).
      - cbn. rewrite app_nil_r. clear. by induction links. }
    by destruct (Hrun self I) as (_ & -> & _).
  - done.
  - cbn [handle]. rewrite get_next_requests_run. cbn [trace].
    rewrite calls_of_cons, calls_of_app, calls_of_cons, calls_of_app,
      calls_of_cons. cbn.
    assert (Hrefresh : forall (o : O) l,
      calls_of is_pagechange_call
        (flat_map (fun page_id =>
                     [OpicGetScores page_id;
                      SchedSetValue (rate:=rate) page_id
                        (opic_get_scores page_id o).2]) l) = []).
    { induction l as [|x l IH]; [done|].
      cbn [flat_map app]. by rewrite !calls_of_cons, IH. }
    assert (Hget : forall l : list string,
      calls_of (score:=score) (rate:=rate) is_pagechange_call (PagesGet <$> l) = []).
    { induction l as [|x l IH]; [done|]. by rewrite fmap_cons, calls_of_cons, IH. }
    by rewrite Hrefresh, Hget.
Qed.

(** ** The pending set *)

Lemma emits_peel {A B} I p l (m : M A) (k : A -> M B) b :
  emits I p l m -> I b ->
  exists a b',
    I b' /\
    result ((m ≫= k) b) = result (k a b') /\
    final ((m ≫= k) b) = final (k a b') /\
    calls_of p (trace ((m ≫= k) b)) = l ++ calls_of p (trace (k a b')).
Proof.
  intros Hm Hb. destruct (Hm b Hb) as ([a Ha] & Hl & Hb').
  exists a, (final (m b)).
  rewrite (bind_result _ _ _ a), (bind_final _ _ _ a), (bind_trace _ _ _ a),
    calls_of_app, Hl by done.
  done.
Qed.

Ltac peel I H tac :=
  match goal with
  | |- context [final (mbind ?k ?m ?b)] =>
      let a := fresh "a" in
      let b' := fresh "b" in
      let Hb := fresh "Hb" in
      destruct (emits_peel I is_debug _ m k b ltac:(tac) H)
        as (a & b' & Hb & -> & -> & ->)
  end.

(** [page_crawled] up to the removal from the pending set: the pending
    set is the one of the call, and nothing was logged. *)
Lemma page_crawled_tail response links self :
  exists b',
    _pending_requests b' = _pending_requests self /\
    let tail :=
      try_except
        (_pending_requests_remove (meta_fingerprint (request response)))
        (fun e => match e with KeyError => true | _ => false end)
        (logger_debug (response_url response +:+ " was crawled without request"))
      ≫= fun _ => logger_debug "PROFILE PAGE_CRAWLED time" in
    result (page_crawled (rate:=rate) response links self) = result (tail b') /\
    final (page_crawled (rate:=rate) response links self) = final (tail b') /\
    calls_of is_debug (trace (page_crawled (rate:=rate) response links self))
    = calls_of is_debug (trace (tail b')).
Proof.
  set (I := fun b : @OpicHitsBackend G P O F C S score =>
              _pending_requests b = _pending_requests self).
  assert (HI : store_free I).
  { intros b1 b2 Hp _ _ Hb1. unfold I. by rewrite <- Hp. }
  unfold page_crawled.
  assert (Hself : I self) by done. revert Hself. generalize self at 1 3 4 5.
  intros b0 Hb0.
  peel I Hb0 ltac:(by apply emits_asks).
  peel I Hb ltac:(by apply emits_does).
  peel I Hb1 ltac:(by apply emits_does).
  peel I Hb2 ltac:(apply (emits_for_each _ _ (fun _ => []));
                   intros link b' Hb'; (split; [by eexists|split; [|done]]);
                   exec; by rewrite !calls_of_cons).
  peel I Hb3 ltac:(by apply emits_does).
  peel I Hb4 ltac:(by apply emits_does).
  peel I Hb5 ltac:(by apply emits_update_freqest).
  exists b6. split; [exact Hb6|]. cbn zeta.
  replace (flat_map (fun _ : Request => @nil (call score rate)) links)
    with (@nil (call score rate)) by (clear; by induction links).
  done.
Qed.

(** After [page_crawled], the pending set is the one before it without
    the fingerprint of the request, whether the fingerprint was pending or
    not; the message about a crawl without request is logged exactly when
    it was not. *)
Theorem page_crawled_clears_pending response links self :
  let fp := meta_fingerprint (request response) in
  let r := page_crawled (rate:=rate) response links self in
  _pending_requests (final r) = _pending_requests self ∖ {[fp]} /\
  calls_of is_debug (trace r)
  = (if decide (fp ∈ _pending_requests self) then []
     else [LogDebug (response_url response +:+ " was crawled without request")])
    ++ [LogDebug "PROFILE PAGE_CRAWLED time"].
Proof.
  intros fp r. subst r.
  destruct (page_crawled_tail response links self)
    as (b' & Hpending & _ & -> & ->).
  unfold mbind, M_bind, bind, try_except, _pending_requests_remove.
  fold fp. rewrite Hpending.
  case_decide; cbn; rewrite ?Hpending; [done|].
  split; [|done]. apply set_eq. intros x.
  rewrite elem_of_difference, elem_of_singleton.
  split; [intros Hx; split; [done|by intros ->]|by intros [? _]].
Qed.

Lemma page_crawled_final_pending response links self :
  _pending_requests (final (page_crawled (rate:=rate) response links self))
  = _pending_requests self ∖ {[meta_fingerprint (request response)]}.
Proof.
  destruct (page_crawled_tail response links self)
    as (b' & Hpending & _ & -> & _).
  unfold mbind, M_bind, bind, try_except, _pending_requests_remove.
  rewrite Hpending. case_decide; cbn; rewrite ?Hpending; [done|].
  apply set_eq. intros x. rewrite elem_of_difference, elem_of_singleton.
  split; [intros Hx; split; [done|by intros ->]|by intros [? _]].
Qed.

(** The pending set after one event. *)
Lemma event_pending e b :
  _pending_requests (final (handle (rate:=rate) e b))
  = match e with
    | AddSeeds _ | RequestError _ => _pending_requests b
    | PageCrawled response _ =>
        _pending_requests b ∖ {[meta_fingerprint (request response)]}
    | GetNextRequests n =>
        _pending_requests (final (get_next_requests (rate:=rate) n b))
    end.
Proof.
  set (I := fun b' : @OpicHitsBackend G P O F C S score =>
              _pending_requests b' = _pending_requests b).
  assert (HI : store_free I).
  { intros b1 b2 Hp _ _ Hb1. unfold I. by rewrite <- Hp. }
  destruct e as [seeds|response links|page|n].
  - assert (Hm : preserves I (handle (rate:=rate) (AddSeeds seeds)))
      by (cbn [handle]; unfold add_seeds; frame HI).
    by apply (Hm b).
  - cbn [handle].
    assert (Hm : returns (page_crawled response links : M unit))
      by (unfold page_crawled; total).
    destruct (Hm b) as [a Ha]. rewrite (bind_final _ _ _ a) by done.
    apply page_crawled_final_pending.
  - done.
  - done.
Qed.

Lemma get_next_requests_keeps_pending n b :
  _pending_requests b
  ⊆ _pending_requests (final (get_next_requests (rate:=rate) n b)).
Proof. rewrite get_next_requests_run. cbn. apply union_subseteq_l. Qed.

(** A fingerprint leaves the pending set only through [page_crawled] for
    its request: through any sequence of frontier events that reports no
    crawl for it (errors, pulls, seeds, other crawls), a pending
    fingerprint stays pending. *)
Theorem pending_until_page_crawled es self fp :
  fp ∈ _pending_requests self ->
  fp ∉ crawled_requests es ->
  fp ∈ _pending_requests (final (handle_all (rate:=rate) es self)).
Proof.
  revert self. induction es as [|e es IH]; intros self Hfp Hes; [done|].
  destruct (handle_all_cons e es self) as (_ & _ & ->).
  apply IH.
  - rewrite event_pending. destruct e as [seeds|response links|page|n];
      [done| |done|by apply get_next_requests_keeps_pending].
    apply elem_of_difference. split; [done|].
    rewrite elem_of_singleton. intros ->. apply Hes. cbn. by left.
  - intros Hin. apply Hes. unfold crawled_requests in *. cbn.
    destruct e; cbn; [done|by right|done|done].
Qed.

(** The pending set grows only in pulls: through a sequence of frontier
    events that holds no [get_next_requests], nothing becomes pending. *)
Theorem pending_grows_only_in_pulls es self :
  has_pull es = false ->
  _pending_requests (final (handle_all (rate:=rate) es self))
  ⊆ _pending_requests self.
Proof.
  revert self. induction es as [|e es IH]; intros self Hes; [done|].
  destruct (handle_all_cons e es self) as (_ & _ & ->).
  cbn in Hes. apply orb_false_elim in Hes as [He Hes].
  etrans; [by apply IH|].
  rewrite event_pending. destruct e as [seeds|response links|page|n];
    [done| |done|done].
  apply subseteq_difference_l. done.
Qed.

(** ** Sequences of events and the pending set *)

Lemma blind_event e : pending_blind (handle (rate:=rate) e).
Proof.
  destruct e; cbn [handle].
  - unfold add_seeds. blind.
  - unfold page_crawled. blind.
  - unfold request_error. blind.
  - unfold get_next_requests. blind.
Qed.

Lemma blind_handle_all es : pending_blind (handle_all (rate:=rate) es).
Proof.
  induction es as [|e es IH]; cbn [handle_all]; [apply blind_ret|].
  apply blind_bind; [apply blind_event|intros out].
  apply blind_bind; [done|intros outs]. apply blind_ret.
Qed.

(** The pending set is written and never used: whatever it holds at the
    start, a sequence of frontier events returns the same requests and
    leaves every store in the same state. *)
Theorem events_ignore_pending es pending self :
  result (handle_all (rate:=rate) es (with_pending pending self))
  = result (handle_all (rate:=rate) es self) /\
  same_stores (final (handle_all (rate:=rate) es self))
              (final (handle_all (rate:=rate) es (with_pending pending self))).
Proof.
  destruct (blind_handle_all es self (with_pending pending self)
              (same_stores_with_pending _ _)) as [Hresult Hstores].
  by split.
Qed.

(** ** Pages the page store does not know *)

(** A page that the scheduler names and the page store does not know is
    answered by [None] at its place in the list a pull returns; it is not
    among the requests handed out, and it is marked pending all the same. *)
Theorem get_next_requests_unknown_page max_n_requests self i fp :
  let u := opic_update (_graph self) (_opic self) in
  let s1 := foldl (fun s page_id =>
                     scheduler_set_value page_id
                       (opic_get_scores page_id u.2).2 s)
                  (_scheduler self) u.1.2 in
  let next_pages := (scheduler_get_next_pages max_n_requests s1).1 in
  let r := get_next_requests (rate:=rate) max_n_requests self in
  next_pages !! i = Some fp ->
  pages_get fp (_pages self) = None ->
  (exists next_requests,
     result r = Returns next_requests /\
     length next_requests = length next_pages /\
     next_requests !! i = Some None) /\
  (fp ∉ handed_out r) /\
  fp ∈ _pending_requests (final r).
Proof.
  intros u s1 next_pages r Hi Hfp. subst r. unfold handed_out.
  rewrite get_next_requests_run. fold u s1 next_pages. cbn [result final].
  split; [|split].
  - eexists. split; [done|]. split; [by rewrite length_fmap|].
    by rewrite list_lookup_fmap, Hi; cbn; rewrite Hfp.
  - unfold fingerprints. rewrite list_elem_of_omap.
    intros (req & Hreq & Hreq').
    apply list_elem_of_fmap in Hreq as (id & -> & Hid).
    destruct (pages_get id (_pages self)) as [d|] eqn:Hd; [|done].
    cbn in Hreq'. injection Hreq' as ->. by rewrite Hfp in Hd.
  - cbn. apply elem_of_union_r, elem_of_list_to_set.
    by apply list_elem_of_lookup_2 with i.
Qed.

(** A link registered by [_add_new_link] is rebuilt by
    [_get_request_from_id] from its fingerprint, with the url and the
    domain it came with, when the page store gives back what was added
    for it. *)
Theorem added_link_is_rebuilt link self :
  let fp := meta_fingerprint link in
  let d := {| pd_url := url link; pd_domain := meta_domain_name link |} in
  pages_get fp (pages_add fp d (_pages self)) = Some d ->
  result (_get_request_from_id (rate:=rate) fp
            (final (_add_new_link (rate:=rate) link self)))
  = Returns (Some link).
Proof.
  intros fp d Hget. rewrite add_new_link_final. exec.
  fold fp d. rewrite Hget. by destruct link.
Qed.

(** ** The attributes after [__init__] *)

Lemma after_keeps_dict_empty test m b :
  __dict__ b = ∅ /\ _test b = test ->
  __dict__ (after (rate:=rate) m b) = ∅ /\ _test (after (rate:=rate) m b) = test.
Proof.
  set (I := fun b : @OpicHitsBackend G P O F C S score =>
              __dict__ b = ∅ /\ _test b = test).
  assert (HI : attrs_only I).
  { intros b1 b2 Ht Hd [? ?]. unfold I. by rewrite <- Ht, <- Hd. }
  intros Hb. pose proof Hb as [Hd Htest]. assert (HIb : I b) by done.
  assert (Hscores : __dict__ b !! "_scores"%string = None)
    by (by rewrite Hd, lookup_empty).
  destruct m; cbn [after].
  - done.
  - destruct (_test b) eqn:Ht.
    + rewrite frontier_stop_raises by done. cbn. by rewrite Ht.
    + assert (Hclose : preserves I
        ((mret tt : M unit) ≫= fun _ =>
         _graph_close ≫= fun _ => _pages_close ≫= fun _ =>
         _opic_close ≫= fun _ => _freqest_close ≫= fun _ => _scheduler_close))
        by frame HI.
      unfold frontier_stop. rewrite Ht. by apply (Hclose b).
  - by apply (preserves_event I).
  - by rewrite h_scores_raises.
  - by rewrite a_scores_raises.
Qed.

Lemma after_all_keeps_dict_empty test ms b :
  __dict__ b = ∅ /\ _test b = test ->
  __dict__ (after_all (rate:=rate) ms b) = ∅ /\
  _test (after_all (rate:=rate) ms b) = test.
Proof.
  revert b. induction ms as [|m ms IH]; intros b Hb; [done|].
  cbn [after_all foldl]. by apply IH, after_keeps_dict_empty.
Qed.

(** No public method ever assigns an attribute that [__init__] did not:
    whatever is called on a backend, with [test] set or not, it holds
    neither [_h_scores] nor [_a_scores] afterwards, the two attributes
    [frontier_stop] is written to fill in test mode. *)
Theorem no_attribute_is_added db_graph db_pages opic scheduler freq_estimator
  change_detector test ms :
  let self :=
    after_all (rate:=rate) ms
      (__init__ db_graph db_pages opic scheduler freq_estimator
                change_detector test) in
  __dict__ self = ∅ /\
  result (getattr (rate:=rate) "_h_scores" self)
  = Raises (AttributeError "_h_scores") /\
  result (getattr (rate:=rate) "_a_scores" self)
  = Raises (AttributeError "_a_scores").
Proof.
  intros self.
  destruct (after_all_keeps_dict_empty test ms
              (__init__ db_graph db_pages opic scheduler freq_estimator
                        change_detector test)) as [Hdict _]; [done|].
  fold self in Hdict. split; [done|].
  by rewrite !getattr_missing by (by rewrite Hdict, lookup_empty).
Qed.

(** On a backend built without [test], whatever was called on it since,
    [frontier_stop] returns after closing five collaborators, in the
    order graph store, page store, score engine, frequency estimator,
    scheduler; the change detector is never closed. *)
Theorem frontier_stop_closes_stores db_graph db_pages opic scheduler
  freq_estimator change_detector ms :
  let self :=
    after_all (rate:=rate) ms
      (__init__ db_graph db_pages opic scheduler freq_estimator
                change_detector false) in
  let r := frontier_stop (rate:=rate) self in
  result r = Returns tt /\
  trace r = [GraphClose; PagesClose; OpicClose; FreqClose; SchedClose] /\
  _pagechange (final r) = _pagechange self /\
  _pending_requests (final r) = _pending_requests self.
Proof.
  intros self r.
  destruct (after_all_keeps_dict_empty false ms
              (__init__ db_graph db_pages opic scheduler freq_estimator
                        change_detector false)) as [_ Htest]; [done|].
  fold self in Htest. subst r. unfold frontier_stop. by rewrite Htest.
Qed.

(** ** The calls to the score engine *)

(** What the score engine is asked by each frontier event, in order.  A
    seed or a link is added and its scores are read.  Of a crawled page
    the scores are read first, and it is marked for update after its
    links were added: [add_page] is called for the links and for nothing
    else.  A pull runs one cycle and then reads the scores of the pages
    the cycle reports as changed in authority, and of no other; an error
    asks nothing. *)
Theorem score_engine_calls e self :
  calls_of is_opic_call (trace (handle (rate:=rate) e self))
  = match e with
    | AddSeeds seeds =>
        flat_map (fun seed => [OpicAddPage (meta_fingerprint seed);
                               OpicGetScores (meta_fingerprint seed)]) seeds
    | PageCrawled response links =>
        OpicGetScores (response_meta_fingerprint response) ::
        flat_map (fun link => [OpicAddPage (meta_fingerprint link);
                               OpicGetScores (meta_fingerprint link)]) links
        ++ [OpicMarkUpdate (response_meta_fingerprint response)]
    | RequestError _ => []
    | GetNextRequests _ =>
        OpicUpdate ::
        (OpicGetScores <$> (opic_update (_graph self) (_opic self)).1.2)
    end.
Proof.
  destruct e as [seeds|response links|page|n].
  - assert (Hrun : emits (fun _ => True) is_opic_call
      (flat_map (fun seed => [OpicAddPage (meta_fingerprint seed);
                              OpicGetScores (meta_fingerprint seed)]) seeds)
      (handle (rate:=rate) (AddSeeds seeds))).
    { cbn [handle]. unfold add_seeds. eapply emits_eq.
      - apply emits_bind; [|intros _; apply emits_ret].
        apply emits_bind; [by apply emits_does|intros _].
        apply emits_bind; [by apply emits_does|intros _].
        apply emits_bind; [|intros _].
        { apply (emits_for_each _ _
                   (fun seed => [OpicAddPage (meta_fingerprint seed);
                                 OpicGetScores (meta_fingerprint seed)])).
          intros seed b _.
          split; [by eexists|split; [|done]]. exec. by rewrite !calls_of_cons. }
        apply emits_bind; [by apply emits_does|intros _].
        apply emits_bind; [by apply emits_does|intros _].
        apply emits_debug.
      - cbn. by rewrite !app_nil_r. }
    by destruct (Hrun self I) as (_ & -> & _).
  - assert (Hout : forall link b,
      calls_of is_opic_call
        (trace ((_add_new_link (rate:=rate) link ≫= fun link_fingerprint =>
                 _graph_add_edge (response_meta_fingerprint response)
                   link_fingerprint ≫= fun _ =>
                 _graph_end_batch) b))
      = [OpicAddPage (meta_fingerprint link);
         OpicGetScores (meta_fingerprint link)])
      by (intros link b; exec; by rewrite !calls_of_cons).
    assert (Hrun : emits (fun _ => True) is_opic_call
      (OpicGetScores (response_meta_fingerprint response) ::
       flat_map (fun link => [OpicAddPage (meta_fingerprint link);
                              OpicGetScores (meta_fingerprint link)]) links
       ++ [OpicMarkUpdate (response_meta_fingerprint response)])
      (handle (rate:=rate) (PageCrawled response links))).
    { cbn [handle]. eapply emits_eq.
      - apply emits_bind; [|intros _; apply emits_ret].
        apply (page_crawled_emits is_opic_call _ [] response links Hout);
          [|done].
        by apply emits_update_freqest.
      - cbn. by rewrite !app_nil_r. }
    by destruct (Hrun self I) as (_ & -> & _).
  - done.
  - cbn [handle]. rewrite get_next_requests_run. cbn [trace].
    rewrite calls_of_cons, calls_of_app, calls_of_cons, calls_of_app,
      calls_of_cons. cbn.
    assert (Hrefresh : forall (o : O) l,
      calls_of is_opic_call
        (flat_map (fun page_id =>
                     [OpicGetScores page_id;
                      SchedSetValue (rate:=rate) page_id
                        (opic_get_scores page_id o).2]) l)
      = OpicGetScores <$> l).
    { induction l as [|x l IH]; [done|].
      cbn [flat_map app]. by rewrite !calls_of_cons, IH. }
    assert (Hget : forall l : list string,
      calls_of (score:=score) (rate:=rate) is_opic_call (PagesGet <$> l) = []).
    { induction l as [|x l IH]; [done|]. by rewrite fmap_cons, calls_of_cons, IH. }
    by rewrite Hrefresh, Hget, app_nil_r.
Qed.

(** ** Which inputs of the scheduler each event sets *)

Implicit Types f : call score rate -> option string.

Lemma projects_ret {A} f (a : A) : projects f [] (mret a : M A).
Proof. intros b. split; [by exists a|done]. Qed.

Lemma projects_does f c (g : @OpicHitsBackend G P O F C S score -> _) :
  projects f (option_list (f c)) (does c g).
Proof.
  intros b. split; [by exists tt|]. cbn. by destruct (f c).
Qed.

Lemma projects_asks {A} f c
  (g : @OpicHitsBackend G P O F C S score -> A * _) :
  projects f (option_list (f c)) (asks c g).
Proof.
  intros b. split; [by eexists|]. cbn. by destruct (f c).
Qed.

Lemma projects_bind {A B} f l1 l2 (m : M A) (k : A -> M B) :
  projects f l1 m -> (forall a, projects f l2 (k a)) ->
  projects f (l1 ++ l2) (m ≫= k).
Proof.
  intros Hm Hk b. destruct (Hm b) as [[a Ha] Hl].
  destruct (Hk a (final (m b))) as [[a' Ha'] Hl'].
  rewrite (bind_result _ _ _ a), (bind_trace _ _ _ a), omap_app by done.
  split; [by exists a'|by rewrite Hl, Hl'].
Qed.

Lemma projects_for_each {A} f (out : A -> list string) (body : A -> M unit) l :
  (forall x, projects f (out x) (body x)) ->
  projects f (flat_map out l) (for_each l body).
Proof.
  intros Hbody. induction l as [|x l IH]; cbn [for_each flat_map].
  - apply projects_ret.
  - apply projects_bind; auto.
Qed.

Lemma projects_eq {A} f l l' (m : M A) :
  projects f l m -> l = l' -> projects f l' m.
Proof. by intros ? <-. Qed.

Lemma projects_pending_remove f fp msg :
  f (LogDebug msg) = None ->
  projects f []
    (try_except (_pending_requests_remove fp : M unit)
       (fun e => match e with KeyError => true | _ => false end)
       (logger_debug msg)).
Proof.
  intros Hf b. unfold try_except, _pending_requests_remove.
  case_decide; cbn; (split; [by exists tt|]); [done|by rewrite Hf].
Qed.

Lemma rate_targets_update_freqest fp body :
  projects rate_target [fp] (_update_freqest fp body : M unit).
Proof.
  intros b. unfold _update_freqest.
  destruct (truthy body); [|by split; [eexists|]].
  exec. by destruct (pagechange_update _ _ _).1; (split; [eexists|]).
Qed.

Lemma value_targets_update_freqest fp body :
  projects value_target [] (_update_freqest fp body : M unit).
Proof.
  intros b. unfold _update_freqest.
  destruct (truthy body); [|by split; [eexists|]].
  exec. by destruct (pagechange_update _ _ _).1; (split; [eexists|]).
Qed.

(** The scheduler inputs of [add_seeds] and of [page_crawled], given
    those of one round of the loop and those of [_update_freqest]. *)
Lemma projects_add_seeds f out seeds :
  f GraphStartBatch = None -> f PagesStartBatch = None ->
  f GraphEndBatch = None -> f PagesEndBatch = None ->
  (forall msg, f (LogDebug msg) = None) ->
  (forall seed b,
     omap f (trace (_add_new_link (rate:=rate) seed b)) = out seed) ->
  projects f (flat_map out seeds) (handle (rate:=rate) (AddSeeds seeds)).
Proof.
  intros H1 H2 H3 H4 H5 Hout. cbn [handle]. unfold add_seeds.
  eapply projects_eq.
  - apply projects_bind; [|intros _; apply projects_ret].
    apply projects_bind; [apply projects_does|intros _].
    apply projects_bind; [apply projects_does|intros _].
    apply projects_bind; [|intros _].
    { apply (projects_for_each _ out). intros seed b.
      split; [by eexists|].
      rewrite (bind_trace _ _ _ (meta_fingerprint seed)) by done.
      cbn [trace mret M_ret ret]. by rewrite app_nil_r. }
    apply projects_bind; [apply projects_does|intros _].
    apply projects_bind; [apply projects_does|intros _].
    apply (projects_does _ _ (fun b => b)).
  - rewrite H1, H2, H3, H4, H5. cbn. by rewrite !app_nil_r.
Qed.

Lemma projects_page_crawled f out upd response links :
  let page_fingerprint := response_meta_fingerprint response in
  f (OpicGetScores page_fingerprint) = None ->
  f PagesStartBatch = None -> f GraphStartBatch = None ->
  f PagesEndBatch = None -> f (OpicMarkUpdate page_fingerprint) = None ->
  (forall msg, f (LogDebug msg) = None) ->
  (forall link b,
     omap f (trace ((_add_new_link (rate:=rate) link ≫= fun link_fingerprint =>
                     _graph_add_edge page_fingerprint link_fingerprint ≫= fun _ =>
                     _graph_end_batch) b)) = out link) ->
  projects f upd
    (_update_freqest page_fingerprint (Some (body response)) : M unit) ->
  projects f (flat_map out links ++ upd)
    (handle (rate:=rate) (PageCrawled response links)).
Proof.
  intros page_fingerprint H1 H2 H3 H4 H5 H6 Hout Hupd.
  cbn [handle]. unfold page_crawled. fold page_fingerprint.
  eapply projects_eq.
  - apply projects_bind; [|intros _; apply projects_ret].
    apply projects_bind; [apply projects_asks|intros _].
    apply projects_bind; [apply projects_does|intros _].
    apply projects_bind; [apply projects_does|intros _].
    apply projects_bind; [|intros _].
    { apply (projects_for_each _ out). intros link b.
      split; [by eexists|apply Hout]. }
    apply projects_bind; [apply projects_does|intros _].
    apply projects_bind; [apply projects_does|intros _].
    apply projects_bind; [exact Hupd|intros _].
    apply projects_bind; [by apply projects_pending_remove|intros _].
    apply (projects_does _ _ (fun b => b)).
  - rewrite H1, H2, H3, H4, H5, H6. cbn. by rewrite !app_nil_r.
Qed.

(** Which pages get their rate set in the scheduler, and which their
    value, by one frontier event, in order.  Seeds get both.  A crawl sets
    the rate of each link and then of the crawled page, and the value of
    each link and of nothing else.  A pull sets no rate, and the value of
    the pages the cycle of the score engine reports as changed in
    authority; an error sets nothing. *)
Theorem scheduler_inputs_set e self :
  omap rate_target (trace (handle (rate:=rate) e self))
  = match e with
    | AddSeeds seeds => meta_fingerprint <$> seeds
    | PageCrawled response links =>
        (meta_fingerprint <$> links) ++ [response_meta_fingerprint response]
    | RequestError _ | GetNextRequests _ => []
    end /\
  omap value_target (trace (handle (rate:=rate) e self))
  = match e with
    | AddSeeds seeds => meta_fingerprint <$> seeds
    | PageCrawled _ links => meta_fingerprint <$> links
    | RequestError _ => []
    | GetNextRequests _ => (opic_update (_graph self) (_opic self)).1.2
    end.
Proof.
  destruct e as [seeds|response links|page|n].
  - split.
    + destruct (projects_add_seeds rate_target
                  (fun seed => [meta_fingerprint seed]) seeds) with (b := self)
        as [_ Hl]; [done..|]. by rewrite Hl, flat_map_singleton.
    + destruct (projects_add_seeds value_target
                  (fun seed => [meta_fingerprint seed]) seeds) with (b := self)
        as [_ Hl]; [done..|]. by rewrite Hl, flat_map_singleton.
  - split.
    + destruct (projects_page_crawled rate_target
                  (fun link => [meta_fingerprint link])
                  [response_meta_fingerprint response] response links)
        with (b := self) as [_ Hl];
        [done..|apply rate_targets_update_freqest|].
      by rewrite Hl, flat_map_singleton.
    + destruct (projects_page_crawled value_target
                  (fun link => [meta_fingerprint link]) [] response links)
        with (b := self) as [_ Hl];
        [done..|apply value_targets_update_freqest|].
      by rewrite Hl, flat_map_singleton, app_nil_r.
  - done.
  - cbn [handle]. rewrite get_next_requests_run. cbn [trace].
    assert (Hget : forall f (l : list string),
      (forall fp, f (PagesGet fp) = None) ->
      omap f (PagesGet (score:=score) (rate:=rate) <$> l) = []).
    { intros f l Hf. induction l as [|x l IH]; [done|].
      rewrite fmap_cons. cbn. by rewrite Hf. }
    split.
    + cbn. rewrite omap_app. cbn. rewrite omap_app, Hget by done. cbn.
      rewrite app_nil_r. generalize (opic_update (_graph self) (_opic self)).2.
      intros o. induction (opic_update (_graph self) (_opic self)).1.2
        as [|x l IH]; [done|]. cbn. apply IH.
    + cbn. rewrite omap_app. cbn. rewrite omap_app, Hget by done. cbn.
      rewrite app_nil_r. generalize (opic_update (_graph self) (_opic self)).2.
      intros o. induction (opic_update (_graph self) (_opic self)).1.2
        as [|x l IH]; [done|]. cbn. by rewrite IH.
Qed.

End BackendProperties.

(** ** Pulls over the scheduler of the specification *)

Section SchedulerProperties.

Import SpecStores.

Context {G P O F C : Type}.
Context {graph_store : GraphInterface G} {page_store : PageDBInterface P}
        {score_engine : OpicHitsInterface G O Q}
        {estimator : FreqEstimatorInterface F Q}
        {detector : PageChangeInterface C}.

Implicit Types self b : @OpicHitsBackend G P O F C schedule Q.
Implicit Types s : schedule.
Implicit Types t : list (call Q Q).

(** The scheduler names only pages that have an entry, and at most as
    many as asked. *)
Lemma get_next_pages_entry k s fp :
  fp ∈ get_next_pages k s -> is_Some (entries s !! fp).
Proof.
  unfold get_next_pages. intros Hfp%subseteq_take.
  apply list_elem_of_fmap in Hfp as ([fp' e] & -> & He).
  rewrite merge_sort_Permutation in He.
  apply elem_of_map_to_list in He. by exists e.
Qed.

Lemma get_next_pages_length k s : length (get_next_pages k s) <= k.
Proof. unfold get_next_pages. rewrite length_take. lia. Qed.

(** C5: a pull runs exactly one cycle of the score engine, then sets the
    scheduler value of every page the cycle reports as changed in
    authority to its new authority, and only then queries the scheduler.
    It returns one request per page the scheduler names, in the order of
    the scheduler, so at most [max_n_requests] of them ([None] stands for
    a page the page store does not know); afterwards the score engine is
    the one the cycle left, the scheduler holds the new values, and the
    pending set has grown by every page named. *)
Theorem get_next_requests_cycle max_n_requests self :
  let u := opic_update (_graph self) (_opic self) in
  let s1 := foldl (fun s page_id =>
                     scheduler_set_value page_id
                       (opic_get_scores page_id u.2).2 s)
                  (_scheduler self) u.1.2 in
  let next_pages := get_next_pages max_n_requests s1 in
  let next_requests :=
    (fun page_id =>
       (fun d => {| url := pd_url d; meta_fingerprint := page_id;
                    meta_domain_name := pd_domain d |})
         <$> pages_get page_id (_pages self)) <$> next_pages in
  let r := get_next_requests max_n_requests self in
  count is_opic_update (trace r) = 1 /\
  trace r = OpicUpdate ::
            flat_map (fun page_id =>
                        [OpicGetScores page_id;
                         SchedSetValue page_id (opic_get_scores page_id u.2).2])
                     u.1.2
            ++ SchedGetNextPages max_n_requests :: (PagesGet <$> next_pages)
            ++ [LogDebug "PROFILE GET_NEXT_REQUESTS time"] /\
  result r = Returns next_requests /\
  length next_requests <= max_n_requests /\
  (forall fp, fp ∈ fingerprints next_requests ->
              fp ∈ _pending_requests (final r)) /\
  final r
  = {| _graph := _graph self;
       _pages := _pages self;
       _opic := u.2;
       _freqest := _freqest self;
       _pagechange := _pagechange self;
       _scheduler := s1;
       _test := _test self;
       _pending_requests := _pending_requests self ∪ list_to_set next_pages;
       __dict__ := __dict__ self |}.
Proof.
  intros u s1 next_pages next_requests r.
  assert (Hlen : length (scheduler_get_next_pages max_n_requests s1).1
                 <= max_n_requests) by apply get_next_pages_length.
  destruct (get_next_requests_calls max_n_requests self Hlen)
    as (Hcount & Htrace & _).
  split; [done|split; [done|]].
  subst r. rewrite get_next_requests_run. fold u s1.
  cbn [result final scheduler_get_next_pages spec_scheduler fst snd].
  fold next_pages next_requests.
  split; [done|split; [|split; [|done]]].
  - subst next_requests. rewrite length_fmap. apply get_next_pages_length.
  - intros fp Hfp%fingerprints_of_requests.
    apply elem_of_union_r. by apply elem_of_list_to_set.
Qed.

End SchedulerProperties.

(** ** Errors over the scheduler and the graph store of the specification *)

Section ErrorProperties.

Import SpecStores.

Context {P O F C : Type}.
Context {page_store : PageDBInterface P}
        {score_engine : OpicHitsInterface graph O Q}
        {estimator : FreqEstimatorInterface F Q}
        {detector : PageChangeInterface C}.

Implicit Types self b : @OpicHitsBackend graph P O F C schedule Q.
Implicit Types s : schedule.
Implicit Types g : graph.

(** A page out of scheduling: removed, and without an entry. *)
Lemma set_rate_keeps_out fp fp' r s :
  fp ∈ removed s /\ entries s !! fp = None ->
  fp ∈ removed (set_rate fp' r s) /\ entries (set_rate fp' r s) !! fp = None.
Proof.
  intros [Hin Hnone]. unfold set_rate. case_decide as Hfp'; [done|].
  cbn. split; [done|]. rewrite lookup_insert_ne; [done|]. by intros ->.
Qed.

Lemma set_value_keeps_out fp fp' v s :
  fp ∈ removed s /\ entries s !! fp = None ->
  fp ∈ removed (set_value fp' v s) /\ entries (set_value fp' v s) !! fp = None.
Proof.
  intros [Hin Hnone]. unfold set_value. case_decide as Hfp'; [done|].
  cbn. split; [done|]. rewrite lookup_insert_ne; [done|]. by intros ->.
Qed.

Lemma delete_page_keeps_out fp fp' s :
  fp ∈ removed s /\ entries s !! fp = None ->
  fp ∈ removed (delete_page fp' s) /\ entries (delete_page fp' s) !! fp = None.
Proof.
  intros [Hin Hnone]. cbn. split; [by apply elem_of_union_l|].
  rewrite lookup_delete. by case_decide.
Qed.

Lemma delete_page_out fp s :
  fp ∈ removed (delete_page fp s) /\ entries (delete_page fp s) !! fp = None.
Proof.
  cbn. split; [by apply elem_of_union_r, elem_of_singleton|].
  apply lookup_delete_eq.
Qed.

(** The graph store never loses a node. *)
Lemma add_node_nodes X fp g : X ⊆ nodes g -> X ⊆ nodes (add_node fp g).
Proof.
  intros HX. unfold add_node. destruct (staged g) as [[ns es]|]; cbn; [done|].
  by apply union_subseteq_l'.
Qed.

Lemma add_edge_nodes X src dst g : X ⊆ nodes g -> X ⊆ nodes (add_edge src dst g).
Proof. intros HX. unfold add_edge. by destruct (staged g) as [[ns es]|]. Qed.

Lemma start_batch_nodes X g : X ⊆ nodes g -> X ⊆ nodes (start_batch g).
Proof. intros HX. unfold start_batch. by destruct (staged g). Qed.

Lemma end_batch_nodes X g : X ⊆ nodes g -> X ⊆ nodes (end_batch g).
Proof.
  intros HX. unfold end_batch. destruct (staged g) as [[ns es]|]; cbn; [|done].
  by apply union_subseteq_l'.
Qed.

Ltac settle :=
  lazymatch goal with
  | |- preserves _ (_ ≫= _) => apply preserves_bind; [settle|intros ?; settle]
  | |- preserves _ (for_each _ _) => apply preserves_for_each; intros ?; settle
  | |- preserves _ (map_M _ _) => apply preserves_map_M; intros ?; settle
  | |- preserves _ (try_except _ _ _) => apply preserves_try_except; settle
  | |- preserves _ (if ?c then _ else _) => destruct c; settle
  | |- preserves _ (match ?x with Some _ => _ | None => _ end) =>
      destruct x; settle
  | |- preserves _ (match ?x with NEW => _ | _ => _ end) => destruct x; settle
  | |- preserves _ (_update_freqest _ _) => unfold _update_freqest; settle
  | |- preserves _ (_update_page_value _ _) =>
      unfold _update_page_value; settle
  | |- preserves _ (_add_new_link _) => unfold _add_new_link; settle
  | |- preserves _ (_get_request_from_id _) =>
      unfold _get_request_from_id; settle
  | |- preserves _ (_pending_requests_remove _) =>
      let b := fresh "b" in let Hb := fresh "Hb" in
      intros b Hb; unfold _pending_requests_remove; by case_decide
  | |- _ =>
      let b := fresh "b" in let Hout := fresh "Hout" in
      let Hnodes := fresh "Hnodes" in
      intros b [Hout Hnodes];
      first
        [ done
        | split; [done|];
          first [ by apply add_node_nodes | by apply add_edge_nodes
                | by apply start_batch_nodes | by apply end_batch_nodes ]
        | split; [|done];
          first [ by apply set_rate_keeps_out | by apply set_value_keeps_out
                | by apply delete_page_keeps_out ] ]
  end.

Lemma settled_event fp X e : preserves (settled fp X) (handle e).
Proof.
  destruct e; cbn [handle].
  - unfold add_seeds. settle.
  - unfold page_crawled. settle.
  - unfold request_error. settle.
  - unfold get_next_requests. settle.
Qed.

(** A page out of scheduling is not handed out. *)
Lemma settled_not_handed_out fp X e b :
  settled fp X b -> fp ∉ handed_out (handle e b).
Proof.
  intros [Hout _].
  assert (Hcases : (exists n, e = GetNextRequests n)
                   \/ forall n, e <> GetNextRequests n).
  { destruct e; [by right..|left; by eexists]. }
  destruct Hcases as [[n ->]|Hother].
  - cbn [handle]. unfold handed_out. rewrite get_next_requests_run.
    cbn [result]. intros Hfp%fingerprints_of_requests.
    apply get_next_pages_entry in Hfp as [entry Hentry].
    assert (Hkept : forall l (v : string -> Q) s,
      fp ∈ removed s /\ entries s !! fp = None ->
      entries (foldl (fun s page_id => set_value page_id (v page_id) s) s l)
        !! fp = None).
    { induction l as [|x l IH]; intros v s Hs; [by destruct Hs|].
      cbn [foldl]. by apply IH, set_value_keeps_out. }
    cbn in Hentry. by rewrite Hkept in Hentry.
  - rewrite handed_out_not_pull by done. by apply not_elem_of_nil.
Qed.

(** C6: [request_error] for a page deletes it from the scheduler and
    leaves the graph store as it was; whatever events follow, pulls, new
    seeds, crawls of pages that link to it, no pull hands the page out
    again: it stays removed from scheduling, while the graph store keeps
    every node it had, the page included. *)
Theorem errored_page_not_returned page es self :
  let fp := meta_fingerprint page in
  let errored := final (request_error page self) in
  let r := handle_all es errored in
  (fp ∉ handed_out r) /\
  _graph errored = _graph self /\
  nodes (_graph self) ⊆ nodes (_graph (final r)) /\
  fp ∈ removed (_scheduler (final r)).
Proof.
  intros fp errored r.
  assert (Hb : settled fp (nodes (_graph self)) errored).
  { split; [apply delete_page_out|done]. }
  assert (Hall : forall b, settled fp (nodes (_graph self)) b ->
    (fp ∉ handed_out (handle_all es b)) /\
    settled fp (nodes (_graph self)) (final (handle_all es b))).
  { clear. induction es as [|e es IH]; intros b Hb.
    - split; [by apply not_elem_of_nil|done].
    - destruct (handle_all_cons e es b) as (-> & _ & ->).
      destruct (IH _ (settled_event fp _ e b Hb)) as [Hrest Hfinal].
      split; [|done]. rewrite elem_of_app. intros [Hnow|?]; [|done].
      by apply (settled_not_handed_out fp _ e b Hb). }
  destruct (Hall errored Hb) as (Hout & [Hremoved _] & Hnodes).
  by repeat split.
Qed.

End ErrorProperties.

(** ** Registering the same seeds again: the stores of the specification *)

Section RegistrationProperties.

Import SpecStores.

Variable epsilon : Q.
Variable default_freq : Q.
Variable cycle : graph -> opic -> (list string * list string) * opic.
Variable smooth : Q -> list bool -> Q.
Variable digest : string -> string.

#[local] Instance score_engine_here : OpicHitsInterface graph opic Q :=
  spec_opic epsilon cycle.
#[local] Instance estimator_here
  : FreqEstimatorInterface (gmap string (Q * list bool)) Q :=
  spec_freqest default_freq smooth.
#[local] Instance detector_here : PageChangeInterface (gmap string string) :=
  spec_pagechange digest.

Implicit Types self b : backend.

Lemma registered_same_registry fp b b' :
  same_registry b b' -> registered fp b -> registered fp b'.
Proof. intros (Hp & Ho & Hf & Hs). unfold registered. by rewrite Hp, Ho, Hf, Hs. Qed.

(** The scheduler entry of a page whose rate and value are set. *)
Lemma scheduled_again fp r a (s : schedule) :
  (fp ∉ removed s -> entries s !! fp = Some (r, a)) ->
  set_value fp a (set_rate fp r s) = s.
Proof.
  intros Hs. unfold set_value, set_rate.
  destruct (decide (fp ∈ removed s)) as [Hin|Hout].
  - by rewrite decide_True.
  - cbn. rewrite decide_False by done. cbn.
    rewrite lookup_insert_eq, (Hs Hout). cbn.
    rewrite insert_insert_eq, insert_id by auto. by destruct s.
Qed.

Lemma scheduled_after fp r a (s : schedule) :
  fp ∉ removed (set_value fp a (set_rate fp r s)) ->
  entries (set_value fp a (set_rate fp r s)) !! fp = Some (r, a).
Proof.
  unfold set_value, set_rate.
  destruct (decide (fp ∈ removed s)) as [Hin|Hout].
  - by rewrite decide_True.
  - cbn. rewrite decide_False by done. cbn. intros _.
    by rewrite !lookup_insert_eq.
Qed.

Lemma scheduled_other fp fp' r a (s : schedule) :
  fp' <> fp ->
  removed (set_value fp' a (set_rate fp' r s)) = removed s /\
  entries (set_value fp' a (set_rate fp' r s)) !! fp = entries s !! fp.
Proof.
  intros Hne. unfold set_value, set_rate.
  destruct (decide (fp' ∈ removed s)) as [Hin|Hout].
  - by rewrite decide_True.
  - cbn. rewrite decide_False by done. cbn.
    by rewrite !lookup_insert_ne.
Qed.

(** Registering a registered page again changes only the graph store. *)
Lemma add_new_link_again link b :
  registered (meta_fingerprint link) b ->
  same_registry b (final (_add_new_link link b)).
Proof.
  intros (h & a & c & r & obs & He & [d Hd] & Hf & Hs).
  rewrite add_new_link_final. unfold same_registry.
  cbn -[set_rate set_value].
  rewrite He, Hd, Hf. cbn -[set_rate set_value]. rewrite ?He, ?Hf.
  repeat split. by apply scheduled_again.
Qed.

(** Registering a page registers it, and keeps the pages registered
    before. *)
Lemma add_new_link_registers link b :
  registered (meta_fingerprint link) (final (_add_new_link link b)).
Proof.
  rewrite add_new_link_final. unfold registered. cbn -[set_rate set_value].
  destruct (scores (_opic b) !! meta_fingerprint link) as [[[h a] c]|] eqn:He;
    destruct (_pages b !! meta_fingerprint link) as [d|] eqn:Hd;
    destruct (_freqest b !! meta_fingerprint link) as [[r obs]|] eqn:Hf;
    cbn -[set_rate set_value]; rewrite ?He, ?Hd, ?Hf, ?lookup_insert_eq;
    cbn -[set_rate set_value]; rewrite ?lookup_insert_eq;
    do 5 eexists; (split; [done|split; [done|split; [done|]]]);
    apply scheduled_after.
Qed.

Lemma add_new_link_keeps_registered fp link b :
  registered fp b -> registered fp (final (_add_new_link link b)).
Proof.
  destruct (decide (meta_fingerprint link = fp)) as [<-|Hne];
    [intros _; apply add_new_link_registers|].
  intros (h & a & c & r & obs & He & Hd & Hf & Hs).
  rewrite add_new_link_final. unfold registered. cbn -[set_rate set_value].
  exists h, a, c, r, obs.
  destruct (scores (_opic b) !! meta_fingerprint link) as [[[h' a'] c']|];
    destruct (_pages b !! meta_fingerprint link) as [d'|];
    destruct (_freqest b !! meta_fingerprint link) as [[r' obs']|];
    cbn -[set_rate set_value]; rewrite ?lookup_insert_ne by done;
    (split; [done|split; [done|split; [done|]]]);
    match goal with
    | |- context [set_value ?fp' ?v (set_rate ?fp' ?x ?s)] =>
        destruct (scheduled_other fp fp' x v s Hne) as [-> ->]
    end; done.
Qed.

Lemma register_all_keeps_registered fp seeds b :
  registered fp b -> registered fp (register_all seeds b).
Proof.
  revert b. induction seeds as [|seed seeds IH]; intros b Hb; [done|].
  cbn [register_all foldl]. by apply IH, add_new_link_keeps_registered.
Qed.

Lemma register_all_registers seeds b seed :
  seed ∈ seeds -> registered (meta_fingerprint seed) (register_all seeds b).
Proof.
  revert b. induction seeds as [|x seeds IH]; intros b Hseed.
  - by apply elem_of_nil in Hseed.
  - cbn [register_all foldl]. apply elem_of_cons in Hseed as [->|Hseed].
    + apply register_all_keeps_registered, add_new_link_registers.
    + by apply IH.
Qed.

Lemma register_all_again seeds b :
  (forall seed, seed ∈ seeds -> registered (meta_fingerprint seed) b) ->
  same_registry b (register_all seeds b).
Proof.
  revert b. induction seeds as [|x seeds IH]; intros b Hb; [done|].
  cbn [register_all foldl].
  assert (Hx : same_registry b (final (_add_new_link x b))).
  { apply add_new_link_again, Hb. by left. }
  assert (Hrest : same_registry (final (_add_new_link x b))
                    (register_all seeds (final (_add_new_link x b)))).
  { apply IH. intros seed Hseed.
    apply (registered_same_registry _ b); [done|]. apply Hb. by right. }
  destruct Hx as (?&?&?&?), Hrest as (?&?&?&?).
  unfold same_registry, register_all in *. repeat split; congruence.
Qed.

(** The graph store after the loop of [add_seeds]. *)
Lemma register_all_graph seeds b :
  _graph (register_all seeds b)
  = foldl (fun g seed => add_node (meta_fingerprint seed) g) (_graph b) seeds.
Proof.
  unfold register_all. revert b.
  induction seeds as [|x seeds IH]; intros b; [done|].
  cbn [foldl]. by rewrite IH.
Qed.

Lemma add_nodes_staged seeds g ns es :
  staged g = Some (ns, es) ->
  foldl (fun g seed => add_node (meta_fingerprint seed) g) g seeds
  = {| nodes := nodes g; edges := edges g;
       staged := Some (ns ∪ list_to_set (meta_fingerprint <$> seeds), es) |}.
Proof.
  revert g ns. induction seeds as [|x seeds IH]; intros g ns Hg.
  - cbn. destruct g. cbn in *. by rewrite Hg, (right_id_L ∅ (∪)).
  - cbn [foldl]. rewrite (IH _ (ns ∪ {[meta_fingerprint x]})).
    + unfold add_node. rewrite Hg. cbn. by rewrite (assoc_L (∪)).
    + unfold add_node. by rewrite Hg.
Qed.

Lemma add_seeds_graph seeds b :
  _graph (final (add_seeds seeds b))
  = {| nodes := nodes (_graph b)
                ∪ (from_option fst ∅ (staged (_graph b))
                   ∪ list_to_set (meta_fingerprint <$> seeds));
       edges := edges (_graph b) ∪ from_option snd ∅ (staged (_graph b));
       staged := None |}.
Proof.
  rewrite add_seeds_final. cbn [_graph with_graph with_pages].
  rewrite register_all_graph. cbn [_graph with_graph with_pages graph_start_batch
    graph_end_batch spec_graph].
  destruct (staged (_graph b)) as [[ns es]|] eqn:Hg.
  - rewrite (add_nodes_staged _ _ ns es) by (unfold start_batch; by rewrite Hg).
    unfold start_batch, end_batch. by rewrite Hg.
  - rewrite (add_nodes_staged _ _ ∅ ∅) by (unfold start_batch; by rewrite Hg).
    unfold start_batch, end_batch. by rewrite Hg.
Qed.

Lemma add_seeds_registry seeds b :
  let started := with_pages (pages_start_batch (_pages b))
                   (with_graph (graph_start_batch (_graph b)) b) in
  same_registry (register_all seeds started) (final (add_seeds seeds b)).
Proof. intros started. rewrite add_seeds_final. by repeat split. Qed.

(** C8: over the stores of the specification, registering the same seeds
    a second time changes neither the graph store, nor the page store,
    nor the score engine, nor the frequency estimator, nor the scheduler:
    no node is added, and the scores, rates and priorities are those of
    the first registration. *)
Theorem add_seeds_idempotent seeds self :
  let once := final (add_seeds seeds self) in
  let twice := final (add_seeds seeds once) in
  _graph twice = _graph once /\
  _pages twice = _pages once /\
  _opic twice = _opic once /\
  _freqest twice = _freqest once /\
  _scheduler twice = _scheduler once.
Proof.
  intros once twice. split.
  - subst twice. rewrite add_seeds_graph. subst once.
    rewrite add_seeds_graph. cbn [nodes edges staged from_option].
    rewrite (left_id_L ∅ (∪)), (right_id_L ∅ (∪)).
    by rewrite <- !(assoc_L (∪)), (idemp_L (∪)).
  - set (restarted := with_pages (pages_start_batch (_pages once))
                        (with_graph (graph_start_batch (_graph once)) once)).
    assert (Hknown : forall seed, seed ∈ seeds ->
                       registered (meta_fingerprint seed) restarted).
    { intros seed Hseed.
      apply (registered_same_registry _ once); [by repeat split|].
      eapply registered_same_registry; [apply add_seeds_registry|].
      by apply register_all_registers. }
    pose proof (register_all_again seeds restarted Hknown) as (Hp & Ho & Hf & Hs).
    pose proof (add_seeds_registry seeds once) as (Hp' & Ho' & Hf' & Hs').
    fold restarted in Hp', Ho', Hf', Hs'. fold twice in Hp', Ho', Hf', Hs'.
    rewrite Hp', Ho', Hf', Hs', Hp, Ho, Hf, Hs. by repeat split.
Qed.

End RegistrationProperties.

(** ** Runs on given inputs *)

Section Replays.

Import SpecStores.

(** C1, as the code runs: a pull does not leave out the pending pages.
    What a pull hands out is the same whatever the pending set holds;
    and on a backend seeded with one page, a first pull hands the page
    out and marks it pending, and with no completion or error in between
    a second pull hands it out again. *)
Theorem pull_twice_hands_out_twice :
  (forall n (self : backend) (pending : gset string),
     handed_out (pull n (with_pending pending self)) = handed_out (pull n self)) /\
  handed_out (pull 1 seeded) = ["a"%string] /\
  elements (_pending_requests (final (pull 1 seeded))) = ["a"%string] /\
  handed_out (pull 1 (final (pull 1 seeded))) = ["a"%string] /\
  handed_out (replay [GetNextRequests 1; GetNextRequests 1] seeded)
  = ["a"%string; "a"%string].
Proof.
  split; [|by vm_compute].
  intros n self pending. unfold handed_out, pull.
  destruct (blind_get_next_requests (score_engine := replay_opic) n self
              (with_pending pending self)) as [Hresult _].
  - by repeat split.
  - by rewrite Hresult.
Qed.

Lemma request_error_keeps_pending_witness :
  "a"%string ∈ handed_out (pull 1 seeded) /\
  "a"%string
  ∈ _pending_requests
      (final (request_error (rate:=Q) (page "a") (final (pull 1 seeded)))).
Proof.
  assert (H : "a"%string ∈ handed_out (pull 1 seeded)) by (vm_compute; left).
  split; [exact H|].
  exact (request_error_keeps_pending (score_engine := replay_opic)
           1 (page "a") seeded H).
Defined.

(** C4, as stated, fails for an empty body: the change detector, which
    has seen another body of the page, classifies the empty body as
    [UPDATED], and [_update_freqest] invokes [add], not [refresh]: the
    detector is not consulted. *)
Lemma update_freqest_empty_body_counterexample :
  let r := _update_freqest (estimator := replay_freqest)
             (detector := replay_pagechange) "a" (Some ""%string) crawled_once in
  (pagechange_update (PageChangeInterface := replay_pagechange)
     "a" "" (_pagechange crawled_once)).1 = UPDATED /\
  trace r = [FreqAdd "a"; FreqFrequency "a"; SchedSetRate "a" DEFAULT_FREQ] /\
  FreqRefresh "a" true ∉ trace r.
Proof.
  intros r. split; [by vm_compute|].
  assert (Htrace : trace r
    = [FreqAdd "a"; FreqFrequency "a"; SchedSetRate "a" DEFAULT_FREQ])
    by (by vm_compute).
  split; [done|]. rewrite Htrace.
  by intros [?|[?|[?|?%elem_of_nil]%elem_of_cons]%elem_of_cons]%elem_of_cons.
Qed.

(** A run of the kind C6 speaks of.  The seeded page is handed out by a
    pull; after an error for it, it is not, even after it was found again
    as a link of a crawled page and given again as a seed, and it is
    still a node of the graph store. *)
Lemma errored_page_rediscovered :
  let es := [RequestError (page "a");
             PageCrawled (crawled "b" "body") [page "a"];
             AddSeeds [page "a"]; GetNextRequests 2] in
  handed_out (replay [GetNextRequests 2] seeded) = ["a"%string] /\
  handed_out (replay es seeded) = [] /\
  "a"%string ∈ nodes (_graph (final (replay es seeded))).
Proof. by vm_compute. Qed.

Lemma page_crawled_without_request_witness :
  let r := page_crawled (score_engine := replay_opic)
             (estimator := replay_freqest) (detector := replay_pagechange)
             (crawled "a" "first body") [page "b"] seeded in
  ("a"%string ∉ _pending_requests seeded) /\
  result r = Returns tt /\
  _pending_requests (final r) = _pending_requests seeded /\
  "b"%string ∈ nodes (_graph (final r)) /\
  _pagechange (final r) !! "a"%string = Some "first body"%string.
Proof.
  intros r.
  assert (H : "a"%string ∉ _pending_requests seeded)
    by (by vm_compute).
  split; [exact H|].
  destruct (page_crawled_without_request (score_engine := replay_opic)
              (estimator := replay_freqest) (detector := replay_pagechange)
              (crawled "a" "first body") [page "b"] seeded H)
    as (Hres & _ & Hfinal & _).
  split; [exact Hres|]. subst r. rewrite Hfinal.
  split; [reflexivity|]. by vm_compute.
Defined.

Lemma pending_until_page_crawled_witness :
  let pulled := final (pull 1 seeded) in
  let es := [RequestError (page "a"); GetNextRequests 1;
             PageCrawled (crawled "b" "body") [page "a"]; AddSeeds [page "a"]] in
  "a"%string ∈ _pending_requests pulled /\
  ("a"%string ∉ crawled_requests es) /\
  "a"%string ∈ _pending_requests (final (replay es pulled)).
Proof.
  intros pulled es.
  assert (H : "a"%string ∈ _pending_requests pulled) by (by vm_compute).
  assert (H' : "a"%string ∉ crawled_requests es).
  { cbn. by intros [?|?%elem_of_nil]%elem_of_cons. }
  split; [exact H|split; [exact H'|]].
  exact (pending_until_page_crawled (score_engine := replay_opic)
           (estimator := replay_freqest) (detector := replay_pagechange)
           es pulled "a" H H').
Defined.

Lemma pending_grows_only_in_pulls_witness :
  let es := [PageCrawled (crawled "a" "body") [page "b"];
             RequestError (page "b"); AddSeeds [page "c"]] in
  has_pull es = false /\
  _pending_requests (final (replay es seeded)) ⊆ _pending_requests seeded.
Proof.
  intros es.
  assert (H : has_pull es = false) by reflexivity.
  split; [exact H|].
  exact (pending_grows_only_in_pulls (score_engine := replay_opic)
           (estimator := replay_freqest) (detector := replay_pagechange)
           es seeded H).
Defined.

Lemma get_next_requests_unknown_page_witness :
  let unseen := final (replay [PageCrawled (crawled "z" "body") []]
                              (fresh false)) in
  let r := pull 1 unseen in
  (scheduler_get_next_pages 1 (_scheduler unseen)).1 !! 0%nat
  = Some "z"%string /\
  pages_get "z" (_pages unseen) = None /\
  result r = Returns [None] /\
  handed_out r = [] /\
  "z"%string ∈ _pending_requests (final r).
Proof.
  intros unseen r.
  assert (H : (scheduler_get_next_pages 1 (_scheduler unseen)).1 !! 0%nat
              = Some "z"%string) by (by vm_compute).
  assert (H' : pages_get "z" (_pages unseen) = None) by (by vm_compute).
  split; [exact H|split; [exact H'|]].
  destruct (get_next_requests_unknown_page (score_engine := replay_opic)
              1 unseen 0 "z" H H') as (_ & _ & Hpending).
  split; [by vm_compute|split; [by vm_compute|exact Hpending]].
Defined.

Lemma added_link_is_rebuilt_witness :
  let d := {| pd_url := url (page "b");
              pd_domain := meta_domain_name (page "b") |} in
  pages_get "b" (pages_add "b" d (_pages seeded)) = Some d /\
  result (_get_request_from_id (rate:=Q) "b"
            (final (_add_new_link (score_engine := replay_opic)
                      (estimator := replay_freqest)
                      (detector := replay_pagechange) (page "b") seeded)))
  = Returns (Some (page "b")).
Proof.
  intros d.
  assert (H : pages_get "b" (pages_add "b" d (_pages seeded)) = Some d)
    by (by vm_compute).
  split; [exact H|].
  exact (added_link_is_rebuilt (score_engine := replay_opic)
           (estimator := replay_freqest) (detector := replay_pagechange)
           (page "b") seeded H).
Defined.

End Replays.

(** * Construction from the settings *)

Section ConstructionProperties.

Import FromManager.

Implicit Types get : string -> setting -> setting.
Implicit Types now : datetime.
Implicit Types dirs : gset string.
Implicit Types s r : string.

(** *** Strings *)

Lemma string_app_cons c s1 s2 : String c s1 +:+ s2 = String c (s1 +:+ s2).
Proof. reflexivity. Qed.

Lemma string_length_app s1 s2 :
  String.length (s1 +:+ s2) = (String.length s1 + String.length s2)%nat.
Proof.
  induction s1 as [|c s1 IH]; [done|].
  rewrite string_app_cons. cbn. by rewrite IH.
Qed.

Lemma string_prefix_app s1 s2 : String.prefix s1 (s1 +:+ s2) = true.
Proof.
  induction s1 as [|c s1 IH]; [by destruct s2|].
  rewrite string_app_cons. cbn. by destruct (Ascii.ascii_dec c c).
Qed.

(** Two strings that end in suffixes of the same length are equal only
    if the suffixes are, and what comes before them. *)
Lemma string_app_inj_suffix s1 s2 r1 r2 :
  String.length r1 = String.length r2 ->
  s1 +:+ r1 = s2 +:+ r2 -> s1 = s2 /\ r1 = r2.
Proof.
  intros Hlen. revert s2.
  induction s1 as [|c s1 IH]; intros [|c' s2] H;
    rewrite ?string_app_cons in H.
  - done.
  - exfalso. change ("" +:+ r1) with r1 in H. rewrite H in Hlen.
    cbn in Hlen. rewrite string_length_app in Hlen. lia.
  - exfalso. change ("" +:+ r2) with r2 in H. rewrite <- H in Hlen.
    cbn in Hlen. rewrite string_length_app in Hlen. lia.
  - injection H as -> H. by destruct (IH _ H) as [-> ->].
Qed.

(** The same for prefixes of the same length. *)
Lemma string_app_inj_prefix s1 s2 r1 r2 :
  String.length s1 = String.length s2 ->
  s1 +:+ r1 = s2 +:+ r2 -> s1 = s2 /\ r1 = r2.
Proof.
  intros Hlen H. apply string_app_inj_suffix; [|done].
  apply (f_equal String.length) in H. rewrite !string_length_app in H. lia.
Qed.

(** *** The name of the default working directory *)

Lemma format_02d_length (n : nat) :
  (n < 100)%nat -> String.length (format_02d n) = 2%nat.
Proof.
  intros Hn.
  assert (H : forallb (fun n => String.length (format_02d n) =? 2)%nat
                      (seq 0 100) = true) by (by vm_compute).
  rewrite forallb_forall in H.
  apply Nat.eqb_eq, H, in_seq. lia.
Qed.

Lemma format_02d_inj (n m : nat) :
  (n < 100)%nat -> (m < 100)%nat -> format_02d n = format_02d m -> n = m.
Proof.
  intros Hn Hm Heq.
  assert (H : forallb (fun n =>
                forallb (fun m =>
                  implb (String.eqb (format_02d n) (format_02d m)) (n =? m)%nat)
                  (seq 0 100)) (seq 0 100) = true) by (by vm_compute).
  rewrite forallb_forall in H.
  specialize (H n). rewrite forallb_forall in H.
  specialize (H ltac:(apply in_seq; lia) m ltac:(apply in_seq; lia)).
  apply String.eqb_eq in Heq. rewrite Heq in H. by apply Nat.eqb_eq.
Qed.

(** The name of the default working directory tells the second it was
    made in: two times that give the same name are the same time. *)
Theorem default_workdir_inj now now' :
  two_digits now -> two_digits now' ->
  default_workdir now = default_workdir now' -> now = now'.
Proof.
  intros (HM & HD & Hh & Hm & Hs) (HM' & HD' & Hh' & Hm' & Hs') H.
  destruct now as [Y M D h m s], now' as [Y' M' D' h' m' s'].
  cbn [month day hour minute second] in *.
  unfold default_workdir in H. cbn [year month day hour minute second] in H.
  apply String.app_inj in H.
  apply string_app_inj_suffix in H as [HY H];
    [|cbn; by rewrite !string_length_app, !format_02d_length].
  apply pretty_nat_inj in HY as ->.
  apply (String.app_inj ".") in H.
  apply string_app_inj_prefix in H as [H1 H];
    [|by rewrite !format_02d_length].
  apply format_02d_inj in H1 as ->; [|done..].
  apply (String.app_inj ".") in H.
  apply string_app_inj_prefix in H as [H1 H];
    [|by rewrite !format_02d_length].
  apply format_02d_inj in H1 as ->; [|done..].
  apply (String.app_inj "-T") in H.
  apply string_app_inj_prefix in H as [H1 H];
    [|by rewrite !format_02d_length].
  apply format_02d_inj in H1 as ->; [|done..].
  apply (String.app_inj ".") in H.
  apply string_app_inj_prefix in H as [H1 H];
    [|by rewrite !format_02d_length].
  apply format_02d_inj in H1 as ->; [|done..].
  apply (String.app_inj ".") in H.
  by apply format_02d_inj in H as ->.
Qed.

(** *** The files of the stores *)

Lemma os_path_join_inj a b b' :
  startswith_slash b = false -> startswith_slash b' = false ->
  os_path_join a b = os_path_join a b' -> b = b'.
Proof.
  unfold os_path_join. intros -> ->.
  destruct (bool_decide (a = ""%string) || endswith_slash a); intros H.
  - by apply String.app_inj in H.
  - by apply String.app_inj, (String.app_inj "/") in H.
Qed.

Lemma os_path_join_prefix a b :
  startswith_slash b = false -> String.prefix a (os_path_join a b) = true.
Proof.
  unfold os_path_join. intros ->.
  destruct (bool_decide (a = ""%string) || endswith_slash a);
    apply string_prefix_app.
Qed.

Lemma file_names_relative optimal name :
  name ∈ file_names optimal -> startswith_slash name = false.
Proof.
  destruct optimal; cbn; rewrite ?elem_of_cons, elem_of_nil;
    intros H; by repeat destruct H as [->|H].
Qed.

Lemma stores_construct get workdir :
  db_path <$> stores (construct get workdir)
  = (fun name => (fun w => os_path_join w name) <$> workdir)
    <$> file_names (truth (get "BACKEND_OPIC_SCHEDULER" (SStr "optimal"))).
Proof.
  unfold stores, construct. cbn [scheduler].
  by destruct (truth _), workdir.
Qed.

(** With [BACKEND_OPIC_IN_MEMORY] set, [from_manager] returns after
    logging one message: it reads no clock and looks at no directory,
    every store is opened without a file, and the arguments it passes to
    the constructor depend neither on the time, nor on the file system,
    nor on the working directory of the settings. *)
Theorem from_manager_in_memory get get' now now' creatable creatable'
  dirs dirs' :
  truth (get "BACKEND_OPIC_IN_MEMORY" (SBool false)) = true ->
  same_but_workdir get get' ->
  let r := from_manager get now creatable dirs in
  calls r = [ManagerDebug "OPIC backend workdir: in-memory"] /\
  directories r = dirs /\
  (exists args, outcome_of r = Built args /\
     Forall (fun db => db_path db = None) (stores args)) /\
  outcome_of (from_manager get' now' creatable' dirs') = outcome_of r.
Proof.
  intros Hmem Hget r. subst r. unfold from_manager.
  rewrite (Hget "BACKEND_OPIC_IN_MEMORY"%string) by done.
  rewrite Hmem. cbn [negb calls directories outcome_of].
  split; [done|split; [done|split]].
  - eexists. split; [done|].
    apply Forall_fmap with (f := db_path) (P := fun p => p = None).
    rewrite stores_construct. apply Forall_fmap, Forall_true. done.
  - unfold construct.
    by rewrite (Hget "BACKEND_OPIC_SCHEDULER"%string),
               (Hget "BACKEND_TEST"%string).
Qed.

(** Without [BACKEND_OPIC_IN_MEMORY], for a working directory that
    exists or can be created, [from_manager] returns, the directory
    exists afterwards, and [os.mkdir] was called exactly when it did not
    exist before.  Every store is opened on a file whose path starts with
    the working directory, and no two stores are opened on the same
    file. *)
Theorem from_manager_files get now creatable dirs workdir :
  truth (get "BACKEND_OPIC_IN_MEMORY" (SBool false)) = false ->
  get "BACKEND_OPIC_WORKDIR" (SStr (default_workdir now)) = SStr workdir ->
  workdir ∈ dirs \/ creatable workdir = true ->
  let r := from_manager get now creatable dirs in
  exists args,
    outcome_of r = Built args /\
    directories r = {[workdir]} ∪ dirs /\
    mkdir_calls r = (if bool_decide (workdir ∈ dirs) then [] else [workdir]) /\
    Forall (fun db => exists path,
              db_path db = Some path /\ String.prefix workdir path = true)
           (stores args) /\
    NoDup (db_path <$> stores args).
Proof.
  intros Hmem Hdir Hok r. exists (construct get (Some workdir)).
  assert (Hr : outcome_of r = Built (construct get (Some workdir)) /\
               directories r = {[workdir]} ∪ dirs /\
               mkdir_calls r
               = (if bool_decide (workdir ∈ dirs) then [] else [workdir])).
  { subst r. unfold from_manager, mkdir_calls. rewrite Hmem, Hdir. cbn [negb].
    case_bool_decide as Hin.
    - split; [done|split; [|done]]. cbn [directories].
      symmetry. by apply subseteq_union_1_L, singleton_subseteq_l.
    - destruct Hok as [Hin' | ->]; done. }
  destruct Hr as (Hres & Hdirs & Hmk).
  split; [done|split; [done|split; [done|]]].
  set (optimal := truth (get "BACKEND_OPIC_SCHEDULER" (SStr "optimal"))).
  split.
  - apply Forall_fmap with (f := db_path)
      (P := fun p => exists path, p = Some path /\
                                  String.prefix workdir path = true).
    rewrite stores_construct. apply Forall_fmap, Forall_forall.
    intros name Hname. eexists. split; [done|].
    by eapply os_path_join_prefix, file_names_relative.
  - rewrite stores_construct. fold optimal. apply NoDup_fmap_2_strong.
    + intros name name' Hname Hname' [= H].
      eapply os_path_join_inj; [by eapply file_names_relative..|done].
    + destruct optimal; by apply (bool_decide_unpack _).
Qed.

(** What the constructor is given when [from_manager] returns: the
    [Optimal] scheduler for every value of [BACKEND_OPIC_SCHEDULER] that
    is true in a condition, so for every non-empty string, and the
    [BestFirst] one only for a value that is false there; the estimator's
    default rate of once a month; and the value of [BACKEND_TEST] as it
    is. *)
Theorem from_manager_arguments get now creatable dirs args :
  outcome_of (from_manager get now creatable dirs) = Built args ->
  let sched := get "BACKEND_OPIC_SCHEDULER" (SStr "optimal") in
  is_optimal (scheduler args) = truth sched /\
  (forall s, sched = SStr s -> s <> ""%string ->
             is_optimal (scheduler args) = true) /\
  length (stores args) = (if truth sched then 7 else 6)%nat /\
  default_freq (freq_estimator args) = DEFAULT_FREQ /\
  test args = get "BACKEND_TEST" (SBool false).
Proof.
  intros Hres sched.
  assert (Hargs : exists workdir, args = construct get workdir).
  { unfold from_manager in Hres.
    destruct (negb _); [|injection Hres as <-; by eexists].
    destruct (get "BACKEND_OPIC_WORKDIR" _); try done.
    case_bool_decide; [injection Hres as <-; by eexists|].
    destruct (creatable _); [injection Hres as <-; by eexists|done]. }
  destruct Hargs as [workdir ->].
  assert (Hopt : is_optimal (scheduler (construct get workdir)) = truth sched).
  { unfold construct. cbn [scheduler]. fold sched. by destruct (truth sched). }
  split; [done|split; [|split; [|done]]].
  - intros s Hs Hne. rewrite Hopt, Hs. by destruct s.
  - pose proof (f_equal length (stores_construct get workdir)) as Hlen.
    rewrite !length_fmap in Hlen. fold sched in Hlen. rewrite Hlen.
    by destruct (truth sched).
Qed.

(** A second construction finds what the first one left: when
    [from_manager] has returned, a later call that is given the same
    working directory creates no directory, whether it could or not, and
    passes the same arguments to the constructor, so that its stores are
    opened on the same files. *)
Theorem from_manager_again get now now' creatable creatable' dirs args :
  let r := from_manager get now creatable dirs in
  outcome_of r = Built args ->
  get "BACKEND_OPIC_WORKDIR" (SStr (default_workdir now'))
  = get "BACKEND_OPIC_WORKDIR" (SStr (default_workdir now)) ->
  let r' := from_manager get now' creatable' (directories r) in
  outcome_of r' = Built args /\
  directories r' = directories r /\
  mkdir_calls r' = [].
Proof.
  intros r Hres Hsame r'. subst r r'. revert Hres.
  unfold from_manager, mkdir_calls. rewrite Hsame. clear Hsame.
  destruct (negb _); [|done].
  destruct (get "BACKEND_OPIC_WORKDIR" _) as [| | |workdir]; try done.
  case_bool_decide as Hin; cbn [directories outcome_of].
  - intros Hres. by rewrite bool_decide_true.
  - destruct (creatable workdir); [|done]. cbn [directories outcome_of].
    intros Hres. rewrite bool_decide_true; [done|].
    apply elem_of_union_l. by apply elem_of_singleton.
Qed.

Lemma default_workdir_inj_witness :
  let now := {| year := 2014; month := 7; day := 1;
                hour := 9; minute := 5; second := 3 |} in
  default_workdir now = "crawl-opic-D2014.07.01-T09.05.03"%string /\
  two_digits now /\ now = now.
Proof.
  intros now.
  assert (H : two_digits now) by (unfold two_digits; cbn; lia).
  split; [reflexivity|split; [exact H|]].
  exact (default_workdir_inj now now H H eq_refl).
Defined.

Lemma from_manager_in_memory_witness :
  let get' := dict_settings {[ "BACKEND_OPIC_IN_MEMORY"%string := SInt 1 ]} in
  let get := dict_settings (<[ "BACKEND_OPIC_WORKDIR"%string := SStr "crawl" ]>
                              {[ "BACKEND_OPIC_IN_MEMORY"%string := SInt 1 ]}) in
  let now := {| year := 2014; month := 7; day := 1;
                hour := 9; minute := 5; second := 3 |} in
  let r := from_manager get now (fun _ => true) ∅ in
  calls r = [ManagerDebug "OPIC backend workdir: in-memory"] /\
  outcome_of (from_manager get' now (fun _ => false) {[ "crawl"%string ]})
  = outcome_of r.
Proof.
  intros get' get now r.
  assert (Hmem : truth (get "BACKEND_OPIC_IN_MEMORY"%string (SBool false)) = true)
    by reflexivity.
  assert (Hget : same_but_workdir get get').
  { intros key d Hkey. unfold get, dict_settings.
    by rewrite lookup_insert_ne. }
  destruct (from_manager_in_memory get get' now now (fun _ => true)
              (fun _ => false) ∅ {[ "crawl"%string ]} Hmem Hget)
    as (Hcalls & _ & _ & Hsame).
  split; [exact Hcalls|exact Hsame].
Defined.

Lemma from_manager_files_witness :
  let now := {| year := 2014; month := 7; day := 1;
                hour := 9; minute := 5; second := 3 |} in
  let r := from_manager (dict_settings ∅) now (fun _ => true) ∅ in
  directories r = {[ "crawl-opic-D2014.07.01-T09.05.03"%string ]} ∪ ∅ /\
  mkdir_calls r = [ "crawl-opic-D2014.07.01-T09.05.03"%string ] /\
  exists args,
    outcome_of r = Built args /\
    db_path (db_graph args)
    = Some "crawl-opic-D2014.07.01-T09.05.03/graph.sqlite"%string /\
    NoDup (db_path <$> stores args).
Proof.
  intros now r.
  assert (Hmem : truth (dict_settings ∅ "BACKEND_OPIC_IN_MEMORY" (SBool false))
                 = false) by (by vm_compute).
  assert (Hdir : dict_settings ∅ "BACKEND_OPIC_WORKDIR"
                   (SStr (default_workdir now))
                 = SStr "crawl-opic-D2014.07.01-T09.05.03") by (by vm_compute).
  destruct (from_manager_files (dict_settings ∅) now (fun _ => true) ∅
              "crawl-opic-D2014.07.01-T09.05.03" Hmem Hdir (or_intror eq_refl))
    as (args & Hres & Hdirs & Hmk & _ & Hnodup).
  split; [exact Hdirs|split; [exact Hmk|]].
  exists args. split; [exact Hres|split; [|exact Hnodup]].
  change (outcome_of r) with
    (Built (construct (dict_settings ∅)
              (Some "crawl-opic-D2014.07.01-T09.05.03"%string))) in Hres.
  by injection Hres as <-.
Defined.

Lemma from_manager_arguments_witness :
  let get := dict_settings
    (<[ "BACKEND_OPIC_SCHEDULER"%string := SStr "bestfirst" ]>
       {[ "BACKEND_OPIC_IN_MEMORY"%string := SBool true ]}) in
  let now := {| year := 2014; month := 7; day := 1;
                hour := 9; minute := 5; second := 3 |} in
  exists args,
    outcome_of (from_manager get now (fun _ => true) ∅) = Built args /\
    is_optimal (scheduler args) = true /\
    length (stores args) = 7%nat.
Proof.
  intros get now. exists (construct get None).
  assert (H : outcome_of (from_manager get now (fun _ => true) ∅)
              = Built (construct get None)) by reflexivity.
  destruct (from_manager_arguments get now (fun _ => true) ∅ _ H)
    as (Hopt & _ & Hlen & _).
  split; [exact H|split; [exact Hopt|exact Hlen]].
Defined.

Lemma from_manager_again_witness :
  let get := dict_settings {[ "BACKEND_OPIC_WORKDIR"%string := SStr "crawl" ]} in
  let now := {| year := 2014; month := 7; day := 1;
                hour := 9; minute := 5; second := 3 |} in
  let now' := {| year := 2014; month := 7; day := 2;
                 hour := 0; minute := 0; second := 0 |} in
  let r := from_manager get now (fun _ => true) ∅ in
  let r' := from_manager get now' (fun _ => false) (directories r) in
  mkdir_calls r = ["crawl"%string] /\
  outcome_of r' = outcome_of r /\
  directories r' = directories r /\
  mkdir_calls r' = [].
Proof.
  intros get now now' r r'.
  assert (H : outcome_of r = Built (construct get (Some "crawl"%string)))
    by reflexivity.
  destruct (from_manager_again get now now' (fun _ => true) (fun _ => false)
              ∅ _ H eq_refl) as (Hres & Hdirs & Hmk).
  split; [reflexivity|split; [|split; [exact Hdirs|exact Hmk]]].
  by rewrite H.
Defined.

End ConstructionProperties.
